(** * st_anomaly_detection: the Streamlit polling script [app.py]

    A shallow embedding of the script: the tabular result it fetches, the
    memoised fetch [run_query], the data-quality check [validate_data], the
    alert ledger ([is_alert_sent], [log_alert], [send_alert]) and the
    top-level script that Streamlit runs once per (re)run.

    The collaborators the script talks to (the Snowflake connector, the
    presentation calls [st.*], the clock) are kept as explicit state: every
    connector call is logged and may raise, as an environment decides. *)

From Stdlib Require Import QArith DecimalString.
From stdpp Require Import gmap strings list fin_maps.

Local Open Scope string_scope.
Local Open Scope list_scope.

(** ** Tabular results (pandas [DataFrame]) *)

(** A column carries a dtype.  [select_dtypes(include="number")] keeps the
    columns of a numeric dtype; every other dtype (text, dates, mixed
    objects) is of no interest to the script beyond its nulls.  A missing
    cell ([NaN] in a numeric column, [None] elsewhere) is [None]. *)
Inductive Series : Type :=
  | NumberSeries (values : list (option Q))
  | ObjectSeries (values : list (option string)).

(** Named columns in their order. *)
Definition DataFrame : Type := list (string * Series).

Definition series_len (s : Series) : nat :=
  match s with
  | NumberSeries values => length values
  | ObjectSeries values => length values
  end.

(** [len(df)]: the number of rows. *)
Definition df_len (df : DataFrame) : nat :=
  match df with
  | [] => 0
  | (_, s) :: _ => series_len s
  end.

(** [df.empty]: some axis has length zero. *)
Definition df_empty (df : DataFrame) : bool :=
  (length df =? 0)%nat || (df_len df =? 0)%nat.

(** Every column of a real [DataFrame] has the length of its index. *)
Definition rectangular (df : DataFrame) : Prop :=
  Forall (λ col, series_len col.2 = df_len df) df.

Definition is_number (s : Series) : bool :=
  match s with NumberSeries _ => true | ObjectSeries _ => false end.

(** [df.select_dtypes(include="number")] *)
Definition select_dtypes_number (df : DataFrame) : DataFrame :=
  filter (λ col, is_number col.2 = true) df.

(** The larger of two numbers, as [max] compares them. *)
Definition q_max (x y : Q) : Q := if Qle_bool x y then y else x.

(** [max] of a sequence of numbers that skips the missing ones
    ([skipna=True]); [None] is the [NaN] it gives when nothing is left. *)
Definition nan_max (values : list (option Q)) : option Q :=
  foldr (λ v acc,
           match v, acc with
           | Some x, Some y => Some (q_max x y)
           | Some x, None => Some x
           | None, _ => acc
           end) None values.

Definition series_max (s : Series) : option Q :=
  match s with
  | NumberSeries values => nan_max values
  | ObjectSeries _ => None
  end.

(** [df.max()]: the series of the column maxima. *)
Definition df_max (df : DataFrame) : list (option Q) :=
  (λ col, series_max col.2) <$> df.

(** [x > 6] for a possibly-[NaN] [x]: every comparison with [NaN] is false. *)
Definition gt_6 (x : option Q) : bool :=
  match x with
  | Some v => negb (Qle_bool v 6)
  | None => false
  end.

(** The non-missing values of the numeric columns. *)
Definition numeric_values (df : DataFrame) : list Q :=
  mjoin ((λ col, match col.2 with
                 | NumberSeries values => omap id values
                 | ObjectSeries _ => []
                 end) <$> df).

(** ** Exceptions *)

Inductive ExnClass : Type :=
  | DatabaseError        (* snowflake.connector.errors.DatabaseError *)
  | IntegrityError       (* snowflake.connector.errors.IntegrityError *)
  | UnboundLocalError.   (* a local read before it was bound *)

Record Exn : Type := mkExn { exn_class : ExnClass; exn_msg : string }.

Inductive Res (A : Type) : Type :=
  | Ok (a : A)
  | Raise (e : Exn).
Arguments Ok {A} a.
Arguments Raise {A} e.

(** ** The Snowflake connector *)

(** Statements the script sends. *)
Inductive Stmt : Type :=
  | Query (sql : string)             (* [run_query]'s statement *)
  | SelectAlert (message : string)   (* SELECT 1 FROM sent_alerts WHERE alert_message = %s *)
  | Begin
  | InsertAlert (message : string)   (* INSERT INTO sent_alerts (alert_message) VALUES (%s) *)
  | Commit
  | Rollback.

(** Calls into the connector, each of which may raise. *)
Inductive Op : Type :=
  | OpConnect
  | OpCursor
  | OpExecute (s : Stmt)
  | OpFetch
  | OpCursorClose
  | OpClose.

(** What a cursor holds after [execute]. *)
Inductive ResultSet : Type :=
  | Table (df : DataFrame)   (* rows and description of a query *)
  | Rows (n : nat).          (* [n] rows of the constant 1 *)

Record Cursor : Type := mkCursor { cur_conn : nat; cur_result : option ResultSet }.

(** What the script sends to the presentation. *)
Inductive Shown : Type :=
  | StTitle (s : string)
  | StWrite (s : string)
  | StWriteBool (b : bool)
  | StDataframe (df : DataFrame)
  | StSuccess (s : string)
  | StWarning (s : string)
  | StError (s : string)
  | StInfo (s : string).

(** ** Validation reports *)

(** Expectations of a suite.  The script uses the first; the second is the
    other kind of rule the validation engine is specified for, on one
    column or, without a target, on every numeric column. *)
Inductive Rule : Type :=
  | ExpectColumnValuesToNotBeNull (column : string)
  | ExpectMaxToBeAtMost (column : option string) (threshold : Q).

Record ValidationReport : Type :=
  mkReport { success : bool; results : list (Rule * bool) }.

(** ** The world the script runs in *)

(** The environment decides what the outside does: which connector call
    raises (and with which message), what a query returns on a given
    connection, whether the ledger table enforces its uniqueness
    constraint, and how the clock is printed. *)
Record Env : Type := mkEnv {
  faults : nat → Op → option string;
  query_result : nat → string → DataFrame;
  unique_enforced : bool;
  strftime : nat → string;
}.

Record World : Type := mkWorld {
  session_state : gmap string bool;     (* st.session_state *)
  cache : gmap string DataFrame;        (* st.cache_data entries of run_query *)
  gx_data_sources : list string;        (* context.data_sources *)
  gx_suites : list string;              (* context.suites *)
  sent_alerts : list string;            (* committed rows of sent_alerts *)
  txn : gmap nat (list string);         (* open transactions: rows not yet committed *)
  next_conn : nat;                      (* connections asked for so far *)
  open_conns : gset nat;                (* connections open now *)
  calls : list (nat * Op);              (* connector calls, oldest first *)
  now : nat;                            (* the clock, in seconds *)
  screen : list Shown;                  (* what was shown, oldest first *)
}.

Definition set_session_state (v : gmap string bool) (w : World) : World :=
  mkWorld v (cache w) (gx_data_sources w) (gx_suites w) (sent_alerts w)
          (txn w) (next_conn w) (open_conns w) (calls w) (now w) (screen w).
Definition set_cache (v : gmap string DataFrame) (w : World) : World :=
  mkWorld (session_state w) v (gx_data_sources w) (gx_suites w) (sent_alerts w)
          (txn w) (next_conn w) (open_conns w) (calls w) (now w) (screen w).
Definition set_gx (ds su : list string) (w : World) : World :=
  mkWorld (session_state w) (cache w) ds su (sent_alerts w)
          (txn w) (next_conn w) (open_conns w) (calls w) (now w) (screen w).
Definition set_sent_alerts (v : list string) (w : World) : World :=
  mkWorld (session_state w) (cache w) (gx_data_sources w) (gx_suites w) v
          (txn w) (next_conn w) (open_conns w) (calls w) (now w) (screen w).
Definition set_txn (v : gmap nat (list string)) (w : World) : World :=
  mkWorld (session_state w) (cache w) (gx_data_sources w) (gx_suites w)
          (sent_alerts w) v (next_conn w) (open_conns w) (calls w) (now w)
          (screen w).
Definition set_next_conn (v : nat) (w : World) : World :=
  mkWorld (session_state w) (cache w) (gx_data_sources w) (gx_suites w)
          (sent_alerts w) (txn w) v (open_conns w) (calls w) (now w) (screen w).
Definition set_open_conns (v : gset nat) (w : World) : World :=
  mkWorld (session_state w) (cache w) (gx_data_sources w) (gx_suites w)
          (sent_alerts w) (txn w) (next_conn w) v (calls w) (now w) (screen w).
Definition set_calls (v : list (nat * Op)) (w : World) : World :=
  mkWorld (session_state w) (cache w) (gx_data_sources w) (gx_suites w)
          (sent_alerts w) (txn w) (next_conn w) (open_conns w) v (now w)
          (screen w).
Definition set_now (v : nat) (w : World) : World :=
  mkWorld (session_state w) (cache w) (gx_data_sources w) (gx_suites w)
          (sent_alerts w) (txn w) (next_conn w) (open_conns w) (calls w) v
          (screen w).
Definition set_screen (v : list Shown) (w : World) : World :=
  mkWorld (session_state w) (cache w) (gx_data_sources w) (gx_suites w)
          (sent_alerts w) (txn w) (next_conn w) (open_conns w) (calls w)
          (now w) v.

(** ** Script computations: environment, state and exceptions *)

Definition M (A : Type) : Type := Env → World → Res A * World.

#[global] Instance M_ret : MRet M := λ A a _ w, (Ok a, w).
#[global] Instance M_bind : MBind M := λ A B f c env w,
  match c env w with
  | (Ok a, w') => f a env w'
  | (Raise e, w') => (Raise e, w')
  end.

Definition raise {A} (e : Exn) : M A := λ _ w, (Raise e, w).
Definition ask : M Env := λ env w, (Ok env, w).
Definition get : M World := λ _ w, (Ok w, w).
Definition modify (f : World → World) : M unit := λ _ w, (Ok tt, f w).

(** [try: body / except Exception as e: handler e] *)
Definition try_except {A} (body : M A) (handler : Exn → M A) : M A :=
  λ env w,
    match body env w with
    | (Ok a, w') => (Ok a, w')
    | (Raise e, w') => handler e env w'
    end.

Definition is_integrity (e : Exn) : bool :=
  match exn_class e with IntegrityError => true | _ => false end.

(** [try: body / except IntegrityError: handler]: any other exception
    passes through. *)
Definition try_except_integrity (body : M unit) (handler : M unit) : M unit :=
  λ env w,
    match body env w with
    | (Ok a, w') => (Ok a, w')
    | (Raise e, w') =>
        if is_integrity e then handler env w' else (Raise e, w')
    end.

(** [try: body / finally: final]: [final] runs on both ways out of [body];
    an exception out of [final] replaces the outcome of [body]. *)
Definition try_finally {A} (body : M A) (final : M unit) : M A :=
  λ env w,
    match body env w with
    | (r, w') =>
        match final env w' with
        | (Ok _, w'') => (r, w'')
        | (Raise e, w'') => (Raise e, w'')
        end
    end.

(** *** Presentation *)

Definition show (s : Shown) : M unit :=
  modify (λ w, set_screen (screen w ++ [s]) w).

(** *** Connector calls *)

(** Every call into the connector is logged; the environment then lets it
    through or makes it raise. *)
Definition connector_call (conn : nat) (op : Op) : M unit :=
  modify (λ w, set_calls (calls w ++ [(conn, op)]) w);;
  env ← ask;
  match faults env conn op with
  | Some msg => raise (mkExn DatabaseError msg)
  | None => mret tt
  end.

(** [snowflake.connector.connect(...)]: a new session, open, with no
    transaction of its own yet. *)
Definition snowflake_connect : M nat :=
  w ← get;
  let conn := next_conn w in
  modify (set_next_conn (S conn));;
  connector_call conn OpConnect;;
  modify (λ w, set_txn (delete conn (txn w))
                 (set_open_conns ({[conn]} ∪ open_conns w) w));;
  mret conn.

(** [conn.cursor()] *)
Definition conn_cursor (conn : nat) : M Cursor :=
  connector_call conn OpCursor;;
  mret (mkCursor conn None).

(** The rows of [sent_alerts] a connection sees: the committed ones and
    those of its own open transaction. *)
Definition visible_alerts (conn : nat) (w : World) : list string :=
  sent_alerts w ++ default [] (txn w !! conn).

Definition count_alerts (message : string) (rows : list string) : nat :=
  length (filter (λ row, row = message) rows).

(** What a statement does to the database, and the result it leaves. *)
Definition run_stmt (conn : nat) (s : Stmt) : M (option ResultSet) :=
  env ← ask;
  w ← get;
  match s with
  | Query sql => mret (Some (Table (query_result env conn sql)))
  | SelectAlert message =>
      mret (Some (Rows (count_alerts message (visible_alerts conn w))))
  | Begin =>
      match txn w !! conn with
      | Some _ => mret None
      | None => modify (set_txn (<[conn := []]> (txn w)));; mret None
      end
  | InsertAlert message =>
      if unique_enforced env && bool_decide (message ∈ visible_alerts conn w)
      then raise (mkExn IntegrityError "Duplicate key value violates unique constraint")
      else
        match txn w !! conn with
        | Some pending =>
            modify (set_txn (<[conn := pending ++ [message]]> (txn w)));;
            mret None
        | None =>
            modify (set_sent_alerts (sent_alerts w ++ [message]));; mret None
        end
  | Commit =>
      modify (λ w, set_txn (delete conn (txn w))
                     (set_sent_alerts (visible_alerts conn w) w));;
      mret None
  | Rollback => modify (set_txn (delete conn (txn w)));; mret None
  end.

(** [cursor.execute(...)] *)
Definition cursor_execute (cursor : Cursor) (s : Stmt) : M Cursor :=
  connector_call (cur_conn cursor) (OpExecute s);;
  r ← run_stmt (cur_conn cursor) s;
  mret (mkCursor (cur_conn cursor) r).

(** [cursor.fetchall()] together with [cursor.description], as the
    [DataFrame] that [pd.DataFrame(data, columns=columns)] builds. *)
Definition cursor_fetchall (cursor : Cursor) : M DataFrame :=
  connector_call (cur_conn cursor) OpFetch;;
  match cur_result cursor with
  | Some (Table df) => mret df
  | _ => mret []
  end.

(** [cursor.fetchone()]: [Some] row, or [None] when there is none. *)
Definition cursor_fetchone (cursor : Cursor) : M (option nat) :=
  connector_call (cur_conn cursor) OpFetch;;
  match cur_result cursor with
  | Some (Rows (S _)) => mret (Some 1)
  | _ => mret None
  end.

(** [cursor.close()] *)
Definition cursor_close (cursor : Cursor) : M unit :=
  connector_call (cur_conn cursor) OpCursorClose.

(** [conn.close()]: the session ends and its open transaction with it. *)
Definition conn_close (conn : nat) : M unit :=
  connector_call conn OpClose;;
  modify (λ w, set_txn (delete conn (txn w))
                 (set_open_conns (open_conns w ∖ {[conn]}) w)).

(** ** The script's functions *)

Definition get_snowflake_connection : M nat := snowflake_connect.

(** The body of [run_query], below its decorator.  [cursor] is bound by
    the first statement of the [try] block; when that statement raises,
    the [finally] block reads an unbound local, raises in turn, and
    [conn.close()] is not reached. *)
Definition run_query_body (query : string) : M DataFrame :=
  conn ← get_snowflake_connection;
  bound ← try_except (cursor ← conn_cursor conn; mret (Some cursor))
                     (λ _, mret None);
  match bound with
  | None =>
      raise (mkExn UnboundLocalError
               "cannot access local variable 'cursor' where it is not associated with a value")
  | Some cursor =>
      try_finally
        (cursor ← cursor_execute cursor (Query query);
         cursor_fetchall cursor)
        (cursor_close cursor;; conn_close conn)
  end.

(** [@st.cache_data]: the value returned for an argument is stored and
    returned again for the same argument, without running the body; a call
    that raises stores nothing. *)
Definition st_cache_data (body : string → M DataFrame) (arg : string)
  : M DataFrame :=
  w ← get;
  match cache w !! arg with
  | Some df => mret df
  | None =>
      df ← body arg;
      modify (λ w, set_cache (<[arg := df]> (cache w)) w);;
      mret df
  end.

Definition run_query : string → M DataFrame := st_cache_data run_query_body.

(** *** Validation (great_expectations) *)

Definition is_null_free (s : Series) : bool :=
  match s with
  | NumberSeries values => forallb (λ v, bool_decide (is_Some v)) values
  | ObjectSeries values => forallb (λ v, bool_decide (is_Some v)) values
  end.

(** [df[name]]: the first column of that name, if any. *)
Fixpoint column (name : string) (df : DataFrame) : option Series :=
  match df with
  | [] => None
  | (n, s) :: rest => if decide (n = name) then Some s else column name rest
  end.

Definition at_most (threshold : Q) (x : option Q) : bool :=
  match x with
  | Some v => Qle_bool v threshold
  | None => true
  end.

(** Modelled from the spec: how the validation engine (the
    great_expectations library, which is not part of the source) decides
    one rule.  A not-null rule fails if some value of its target column is
    null; a threshold rule passes if no value exceeds the threshold; with
    no rows both pass; a rule whose target column is missing fails, and
    nothing is raised. *)
Definition rule_passes (df : DataFrame) (r : Rule) : bool :=
  match r with
  | ExpectColumnValuesToNotBeNull name =>
      match column name df with
      | Some s => is_null_free s
      | None => false
      end
  | ExpectMaxToBeAtMost (Some name) threshold =>
      match column name df with
      | Some s => at_most threshold (series_max s)
      | None => false
      end
  | ExpectMaxToBeAtMost None threshold =>
      forallb (at_most threshold) (df_max (select_dtypes_number df))
  end.

(** Modelled from the spec: [batch.validate(suite)] of great_expectations.
    The rules are decided in their order; the report keeps that order and
    succeeds when every rule passed. *)
Definition validate (df : DataFrame) (rules : list Rule) : ValidationReport :=
  let outcomes := (λ r, (r, rule_passes df r)) <$> rules in
  mkReport (forallb snd outcomes) outcomes.

(** The column a rule is about, if it names one. *)
Definition rule_target (r : Rule) : option string :=
  match r with
  | ExpectColumnValuesToNotBeNull name => Some name
  | ExpectMaxToBeAtMost target _ => target
  end.

(** The target column of a rule, if it names one, is in the result. *)
Definition target_present (df : DataFrame) (r : Rule) : Prop :=
  match rule_target r with
  | Some name => is_Some (column name df)
  | None => True
  end.

(** [context = gx.get_context()], at the top of the script: a new context
    for every run of the script. *)
Definition gx_get_context : M unit := modify (set_gx [] []).

Definition employee_suite : list Rule :=
  [ExpectColumnValuesToNotBeNull "EMPLOYEE_ID"].

Definition validate_data (df : DataFrame) : M ValidationReport :=
  (* data source, asset and batch definition over the dataframe *)
  modify (λ w, set_gx (gx_data_sources w ++ ["employee"]) (gx_suites w) w);;
  (* the suite and its one expectation *)
  let suite := employee_suite in
  modify (λ w, set_gx (gx_data_sources w) (gx_suites w ++ ["employee_suite"]) w);;
  mret (validate df suite).

(** *** The alert ledger *)

Definition is_alert_sent (conn : nat) (message : string) : M bool :=
  cursor ← conn_cursor conn;
  cursor ← cursor_execute cursor (SelectAlert message);
  result ← cursor_fetchone cursor;
  mret (bool_decide (is_Some result)).

(** [conn.cursor().execute(...)] *)
Definition execute_on (conn : nat) (s : Stmt) : M unit :=
  cursor ← conn_cursor conn;
  cursor_execute cursor s;;
  mret tt.

Definition log_alert (conn : nat) (message : string) : M unit :=
  try_except_integrity
    (execute_on conn Begin;;
     execute_on conn (InsertAlert message);;
     execute_on conn Commit)
    (execute_on conn Rollback).

Definition send_alert (message : string) : M unit :=
  conn ← get_snowflake_connection;
  sent ← is_alert_sent conn message;
  (if negb sent then
     log_alert conn message;;
     show (StWarning ("Alert: " +:+ message))
   else
     show (StInfo "Alert already sent for this issue."));;
  conn_close conn.

(** *** The top level *)

Definition dquote : string := String (Ascii.ascii_of_nat 34) EmptyString.

(** SELECT * FROM "EMPLOYEE"."PUBLIC"."EMPLOYEE" LIMIT 10; *)
Definition query : string :=
  "SELECT * FROM " +:+ dquote +:+ "EMPLOYEE" +:+ dquote +:+ "." +:+
  dquote +:+ "PUBLIC" +:+ dquote +:+ "." +:+
  dquote +:+ "EMPLOYEE" +:+ dquote +:+ " LIMIT 10;".

Definition alert_message : string :=
  "One or more numeric columns have values greater than 6.".

(** How a run of the script ends: [st.rerun()] asks for the next run, or
    the script reaches its end and waits for the user. *)
Inductive ScriptEnd : Type :=
  | Rerun
  | Finished.

(** [str(n)] *)
Definition str (n : nat) : string := NilZero.string_of_uint (Nat.to_uint n).

Definition display_time : M unit :=
  env ← ask;
  w ← get;
  let current_time := strftime env (now w) in
  show (StWrite ("Current time: " +:+ current_time)).

(** [time.sleep(secs)] *)
Definition time_sleep (secs : nat) : M unit :=
  modify (λ w, set_now (now w + secs) w).

(** [st.session_state['auto_refresh']], once the key is there. *)
Definition auto_refresh (w : World) : bool :=
  default false (session_state w !! "auto_refresh").

(** The anomaly detection of the main logic. *)
Definition anomaly_check (results_df : DataFrame) : M unit :=
  if negb (df_empty results_df) then
    if gt_6 (nan_max (df_max (select_dtypes_number results_df))) then
      send_alert alert_message
    else
      show (StWrite "No anomalies detected.")
  else mret tt.

(** The [try] block of the main logic. *)
Definition cycle_body : M unit :=
  results_df ← run_query query;
  show (StSuccess "Query executed successfully!");;
  show (StWrite ("Results (" +:+ str (df_len results_df) +:+ " rows):"));;
  show (StDataframe results_df);;
  validation_results ← validate_data results_df;
  show (StWriteBool (success validation_results));;
  anomaly_check results_df.

(** The script up to its main logic: title, session state, toggle button
    and status line.  [button] is what [st.button] returns in this run. *)
Definition header (button : bool) : M unit :=
  gx_get_context;;
  show (StTitle "Data Anomaly Detection");;
  w ← get;
  (if bool_decide (session_state w !! "auto_refresh" = None) then
     modify (set_session_state (<["auto_refresh" := false]> (session_state w)))
   else mret tt);;
  (if button then
     modify (λ w, set_session_state
                    (<["auto_refresh" := negb (auto_refresh w)]> (session_state w)) w)
   else mret tt);;
  w ← get;
  show (StWrite ("Auto-refresh is " +:+ (if auto_refresh w then "ON" else "OFF"))).

(** One run of the script. *)
Definition script (button : bool) : M ScriptEnd :=
  header button;;
  w ← get;
  if auto_refresh w then
    display_time;;
    try_except cycle_body
      (λ e, show (StError ("Error running query: " +:+ exn_msg e)));;
    time_sleep 10;;
    mret Rerun
  else
    display_time;;
    mret Finished.

(** The world after a run. *)
Definition after_run (env : Env) (button : bool) (w : World) : World :=
  (script button env w).2.

(** A session: the runs of the script, one after the other, each with what
    the toggle button returned in it. *)
Definition run_session (env : Env) (buttons : list bool) (w : World) : World :=
  foldl (λ w button, after_run env button w) w buttons.

(** The world in which the fetch of a run takes place. *)
Definition at_fetch (env : Env) (button : bool) (w : World) : World :=
  ((header button;; display_time) env w).2.

(** ** Callers of [send_alert] side by side *)

(** Where a caller of [send_alert] stands: each constructor is the point
    before one statement of the function. *)
Inductive Pc : Type :=
  | AtConnect
  | AtCheck (conn : nat)
  | AtBranch (conn : nat) (sent : bool)
  | AtWarning (conn : nat)
  | AtClose (conn : nat)
  | Returned
  | Raised (e : Exn).

(** The next step of a caller: one step for each statement of
    [send_alert].  The call of [log_alert], with its three database
    statements, is taken as one step: a schedule orders whole steps, not
    the database statements inside [log_alert]. *)
Definition caller_step (message : string) (pc : Pc) : M Pc :=
  match pc with
  | AtConnect => conn ← get_snowflake_connection; mret (AtCheck conn)
  | AtCheck conn => sent ← is_alert_sent conn message; mret (AtBranch conn sent)
  | AtBranch conn false => log_alert conn message;; mret (AtWarning conn)
  | AtBranch conn true =>
      show (StInfo "Alert already sent for this issue.");; mret (AtClose conn)
  | AtWarning conn =>
      show (StWarning ("Alert: " +:+ message));; mret (AtClose conn)
  | AtClose conn => conn_close conn;; mret Returned
  | Returned => mret Returned
  | Raised e => mret (Raised e)
  end.

(** Callers and the world they share. *)
Definition Config : Type := list Pc * World.

(** Caller [i] takes its next step; an exception ends that caller. *)
Definition config_step (env : Env) (message : string) (i : nat) (c : Config)
  : Config :=
  match c.1 !! i with
  | None => c
  | Some pc =>
      match caller_step message pc env c.2 with
      | (Ok pc', w') => (<[i := pc']> c.1, w')
      | (Raise e, w') => (<[i := Raised e]> c.1, w')
      end
  end.

(** A schedule names the caller that moves, step after step. *)
Definition run_schedule (env : Env) (message : string) (schedule : list nat)
    (c : Config) : Config :=
  foldl (λ c i, config_step env message i c) c schedule.

Definition is_warning (s : Shown) : bool :=
  match s with StWarning _ => true | _ => false end.

Definition is_info (s : Shown) : bool :=
  match s with StInfo _ => true | _ => false end.

(** How many alerts, and how many notices, a screen shows. *)
Definition count_warnings (shown : list Shown) : nat :=
  length (filter (λ s, is_warning s = true) shown).

Definition count_infos (shown : list Shown) : nat :=
  length (filter (λ s, is_info s = true) shown).

(** ** Worlds and environments to run the script in *)

(** A new process: nothing cached, nothing recorded, nothing shown. *)
Definition fresh_world : World :=
  mkWorld ∅ ∅ [] [] [] ∅ 0 ∅ [] 0 [].

(** An environment in which no connector call raises. *)
Definition healthy_env (result : nat → string → DataFrame) : Env :=
  mkEnv (λ _ _, None) result true (λ t, str t).

(** The status line of the header. *)
Definition status_line (active : bool) : Shown :=
  StWrite ("Auto-refresh is " +:+ (if active then "ON" else "OFF")).

(** The world the header leaves behind. *)
Definition header_world (button : bool) (w : World) : World :=
  let active := xorb button (auto_refresh w) in
  mkWorld (<["auto_refresh" := active]> (session_state w)) (cache w) [] []
    (sent_alerts w) (txn w) (next_conn w) (open_conns w) (calls w) (now w)
    (screen w ++ [StTitle "Data Anomaly Detection"; status_line active]).

(** ** Relations between the worlds before and after a computation *)

(** Whatever the environment and the start, the computation takes a world
    to one related to it. *)
Definition stable (R : relation World) {A} (c : M A) : Prop :=
  ∀ env w, R w (c env w).2.

(** A relation that does not look at what the connector and the cache
    keep; the call log only ever grows. *)
Class Blind (R : relation World) : Prop := {
  blind_preorder :: PreOrder R;
  blind_calls w c : R w (set_calls (calls w ++ [c]) w);
  blind_next_conn w v : R w (set_next_conn v w);
  blind_open_conns w v : R w (set_open_conns v w);
  blind_txn w v : R w (set_txn v w);
  blind_cache w v : R w (set_cache v w);
}.

(** A relation that does not look at the ledger or the screen either. *)
Class LedgerBlind (R : relation World) : Prop := {
  ledger_blind :: Blind R;
  blind_sent_alerts w v : R w (set_sent_alerts v w);
  blind_screen w v : R w (set_screen v w);
}.

Definition writes_ledger (s : Stmt) : bool :=
  match s with InsertAlert _ | Commit => true | _ => false end.

(** No record added and no alert shown. *)
Definition quiet : relation World := λ w w',
  sent_alerts w' = sent_alerts w ∧
  count_warnings (screen w') = count_warnings (screen w).

(** What a fetch leaves as it was. *)
Definition fetch_frame : relation World := λ w w',
  screen w' = screen w ∧ session_state w' = session_state w ∧
  gx_data_sources w' = gx_data_sources w ∧ gx_suites w' = gx_suites w ∧
  sent_alerts w' = sent_alerts w ∧ now w' = now w.

(** Connector calls are only ever added to the log. *)
Definition calls_grow : relation World := λ w w',
  calls w `prefix_of` calls w'.

(** ** Frames and environments of the examples *)

(** One numeric column with the given values. *)
Definition frame_of (values : list Q) : DataFrame :=
  [("EMPLOYEE_ID", NumberSeries (Some <$> values))].

(** A data source whose table changes after the first connection. *)
Definition drifting_env : Env :=
  healthy_env (λ conn _, if (conn =? 0)%nat then frame_of [1; 2; 3]%Q
                         else frame_of [1; 2; 7]%Q).

(** A connector on which [conn.cursor()] raises. *)
Definition cursor_fails_env : Env :=
  mkEnv (λ _ op, match op with OpCursor => Some "cursor failed" | _ => None end)
        (λ _ _, []) true str.

(** A connector on which [cursor.close()] raises. *)
Definition cursor_close_fails_env : Env :=
  mkEnv (λ _ op, match op with OpCursorClose => Some "close failed" | _ => None end)
        (λ _ _, frame_of [1; 2; 3]%Q) true str.

(** ** The maximum the anomaly check is about *)

(** [m] is the largest of the numbers [l]. *)
Definition is_maximum (m : Q) (l : list Q) : Prop :=
  m ∈ l ∧ ∀ v, v ∈ l → Qle v m.

(** The maximum over all numeric columns is greater than 6. *)
Definition max_exceeds_6 (df : DataFrame) : Prop :=
  ∃ m, is_maximum m (numeric_values df) ∧ Qlt 6 m.

(** ** One alert, one record *)

(** Either nothing was recorded and no alert shown, or the one record of
    [message], new to the ledger, was added and its alert shown once. *)
Definition alert_step (message : string) : relation World := λ w w',
  quiet w w' ∨
  ((message ∉ sent_alerts w) ∧
   sent_alerts w' = sent_alerts w ++ [message] ∧
   count_warnings (screen w') = S (count_warnings (screen w))).


(** A data source that refuses every connection. *)
Definition connect_fails_env : Env :=
  mkEnv (λ _ op, match op with OpConnect => Some "connection refused" | _ => None end)
        (λ _ _, []) true str.

(** A ledger table whose uniqueness constraint is not enforced. *)
Definition unconstrained_env : Env :=
  mkEnv (λ _ _, None) (λ _ _, []) false str.

(** ** Parts of the world a computation leaves alone *)

(** The part [part] of the world is after the computation what it was. *)
Definition same {X} (part : World → X) : relation World := λ w w',
  part w' = part w.

(** How many presses of the toggle button there were, modulo two. *)
Definition odd_presses (buttons : list bool) : bool :=
  foldr xorb false buttons.

(** A connector call that executes a query of [run_query]. *)
Definition is_query_call (c : nat * Op) : bool :=
  match c.2 with OpExecute (Query _) => true | _ => false end.

(** How many queries were executed. *)
Definition count_queries (log : list (nat * Op)) : nat :=
  length (filter (λ c, is_query_call c = true) log).

(** The cache and the number of executed queries. *)
Definition fetch_state (w : World) : gmap string DataFrame * nat :=
  (cache w, count_queries (calls w)).

(** A frame stored for the query stays stored, and no query is executed. *)
Definition stored (q : string) (df : DataFrame) : relation World := λ w w',
  cache w !! q = Some df →
  cache w' !! q = Some df ∧ count_queries (calls w') = count_queries (calls w).

(** A connector on which executing the query raises. *)
Definition execute_fails_env : Env :=
  mkEnv (λ _ op, match op with
                 | OpExecute (Query _) => Some "SQL compilation error"
                 | _ => None
                 end)
        (λ _ _, []) true str.

(** A connector on which COMMIT raises. *)
Definition commit_fails_env : Env :=
  mkEnv (λ _ op, match op with
                 | OpExecute Commit => Some "commit failed"
                 | _ => None
                 end)
        (λ _ _, []) true str.

(** A data source that answers the first connection and refuses the
    others. *)
Definition ledger_down_env : Env :=
  mkEnv (λ conn op, if (conn =? 0)%nat then None else Some "ledger unreachable")
        (λ _ _, [("EMPLOYEE_ID", NumberSeries [Some 1%Q; None; Some 7%Q])])
        true str.

(** The computation asks for at most [n] connections. *)
Definition connects_at_most (n : nat) {A} (c : M A) : Prop :=
  ∀ env w, (next_conn w ≤ next_conn (c env w).2 ≤ next_conn w + n)%nat.


(** * Properties *)

(** ** Running computations by hand *)

Ltac unfold_monad :=
  unfold try_except, try_except_integrity, try_finally,
    show, modify, get, ask, raise, mbind, mret, M_bind, M_ret in *.

Ltac unfold_connector :=
  unfold execute_on, get_snowflake_connection, snowflake_connect, conn_cursor,
    cursor_execute, cursor_fetchall, cursor_fetchone, cursor_close,
    conn_close, connector_call in *.

(** ** Relations that every step of a computation keeps *)

Section Stable.
Context (R : relation World) `{!PreOrder R}.

Lemma stable_ret {A} (a : A) : stable R (mret a).
Proof. intros env w. reflexivity. Qed.

Lemma stable_raise {A} e : stable R (@raise A e).
Proof. intros env w. reflexivity. Qed.

Lemma stable_bind {A B} (c : M A) (f : A → M B) :
  stable R c → (∀ a, stable R (f a)) → stable R (c ≫= f).
Proof.
  intros Hc Hf env w. unfold_monad. specialize (Hc env w).
  destruct (c env w) as [[a|e] w1]; simpl in *; [|done].
  etrans; [exact Hc|]. apply Hf.
Qed.

Lemma stable_get_bind {A} (f : World → M A) :
  (∀ w, stable R (f w)) → stable R (get ≫= f).
Proof. intros Hf env w. apply (Hf w env w). Qed.

Lemma stable_ask_bind {A} (f : Env → M A) :
  (∀ env, stable R (f env)) → stable R (ask ≫= f).
Proof. intros Hf env w. apply (Hf env env w). Qed.

Lemma stable_modify (f : World → World) :
  (∀ w, R w (f w)) → stable R (modify f).
Proof. intros Hf env w. apply Hf. Qed.

Lemma stable_try_except {A} (body : M A) handler :
  stable R body → (∀ e, stable R (handler e)) → stable R (try_except body handler).
Proof.
  intros Hb Hh env w. unfold_monad. specialize (Hb env w).
  destruct (body env w) as [[a|e] w1]; simpl in *; [done|].
  etrans; [exact Hb|]. apply Hh.
Qed.

Lemma stable_try_except_integrity body handler :
  stable R body → stable R handler → stable R (try_except_integrity body handler).
Proof.
  intros Hb Hh env w. unfold_monad. specialize (Hb env w).
  destruct (body env w) as [[a|e] w1]; simpl in *; [done|].
  destruct (is_integrity e); [|done].
  etrans; [exact Hb|]. apply Hh.
Qed.

Lemma stable_try_finally {A} (body : M A) final :
  stable R body → stable R final → stable R (try_finally body final).
Proof.
  intros Hb Hf env w. unfold_monad. specialize (Hb env w).
  destruct (body env w) as [r w1]; simpl in *.
  specialize (Hf env w1).
  destruct (final env w1) as [[a|e] w2]; simpl in *; etrans; eauto.
Qed.
End Stable.

Create HintDb stable.

Ltac stable_step :=
  match goal with
  | |- stable _ (mret _) => apply stable_ret; apply _
  | |- stable _ (raise _) => apply stable_raise; apply _
  | |- stable _ (get ≫= _) => apply stable_get_bind; intros ?
  | |- stable _ (ask ≫= _) => apply stable_ask_bind; intros ?
  | |- stable _ (_ ≫= _) => apply stable_bind; [apply _| |intros ?]
  | |- stable _ (try_except _ _) => apply stable_try_except; [apply _| |intros ?]
  | |- stable _ (try_except_integrity _ _) =>
      apply stable_try_except_integrity; [apply _| |]
  | |- stable _ (try_finally _ _) => apply stable_try_finally; [apply _| |]
  | |- stable _ (modify _) => apply stable_modify; intros ?
  | |- stable _ (match ?x with _ => _ end) => destruct x
  end.

Ltac stable_tac := repeat first [solve [eauto with stable] | stable_step].

#[local] Hint Extern 1 (Blind _) => apply _ : stable.
#[local] Hint Extern 1 (PreOrder _) => apply _ : stable.

(** What the connector calls, and the fetch built from them, keep. *)
Section Connector.
Context (R : relation World) `{!Blind R}.

Lemma stable_connector_call conn op : stable R (connector_call conn op).
Proof. unfold connector_call. stable_tac. apply blind_calls. Qed.
Local Hint Resolve stable_connector_call : stable.

Lemma stable_snowflake_connect : stable R snowflake_connect.
Proof.
  unfold snowflake_connect. stable_tac.
  - apply blind_next_conn.
  - etrans; [apply blind_open_conns|apply blind_txn].
Qed.

Lemma stable_conn_cursor conn : stable R (conn_cursor conn).
Proof. unfold conn_cursor. stable_tac. Qed.

Lemma stable_cursor_fetchall cursor : stable R (cursor_fetchall cursor).
Proof. unfold cursor_fetchall. stable_tac. Qed.

Lemma stable_cursor_fetchone cursor : stable R (cursor_fetchone cursor).
Proof. unfold cursor_fetchone. stable_tac. Qed.

Lemma stable_cursor_close cursor : stable R (cursor_close cursor).
Proof. unfold cursor_close. stable_tac. Qed.

Lemma stable_conn_close conn : stable R (conn_close conn).
Proof.
  unfold conn_close. stable_tac.
  etrans; [apply blind_open_conns|apply blind_txn].
Qed.

Lemma stable_run_stmt conn s :
  writes_ledger s = false → stable R (run_stmt conn s).
Proof.
  intros Hs. unfold run_stmt. destruct s; try discriminate; stable_tac;
    apply blind_txn.
Qed.
Local Hint Resolve stable_snowflake_connect stable_conn_cursor
  stable_cursor_fetchall stable_cursor_fetchone stable_cursor_close
  stable_conn_close stable_run_stmt : stable.

Lemma stable_cursor_execute cursor s :
  writes_ledger s = false → stable R (cursor_execute cursor s).
Proof. intros Hs. unfold cursor_execute. stable_tac. Qed.
Local Hint Resolve stable_cursor_execute : stable.

Lemma stable_is_alert_sent conn message : stable R (is_alert_sent conn message).
Proof. unfold is_alert_sent. stable_tac. Qed.

Lemma stable_run_query_body q : stable R (run_query_body q).
Proof. unfold run_query_body, get_snowflake_connection. stable_tac. Qed.
Local Hint Resolve stable_run_query_body : stable.

Lemma stable_run_query q : stable R (run_query q).
Proof. unfold run_query, st_cache_data. stable_tac. apply blind_cache. Qed.
End Connector.

#[local] Hint Resolve stable_connector_call stable_snowflake_connect
  stable_conn_cursor stable_cursor_fetchall stable_cursor_fetchone
  stable_cursor_close stable_conn_close stable_run_stmt stable_cursor_execute
  stable_is_alert_sent stable_run_query_body stable_run_query : stable.

(** What the ledger functions keep as well. *)
Section Ledger.
Context (R : relation World) `{!LedgerBlind R}.

Lemma stable_show s : stable R (show s).
Proof. unfold show. stable_tac. apply blind_screen. Qed.

Lemma stable_run_stmt_any conn s : stable R (run_stmt conn s).
Proof.
  unfold run_stmt. destruct s; stable_tac;
    try apply blind_txn; try apply blind_sent_alerts.
  etrans; [apply blind_sent_alerts|apply blind_txn].
Qed.
Local Hint Resolve stable_show stable_run_stmt_any : stable.

Lemma stable_execute_on conn s : stable R (execute_on conn s).
Proof. unfold execute_on, cursor_execute. stable_tac. Qed.
Local Hint Resolve stable_execute_on : stable.

Lemma stable_log_alert conn message : stable R (log_alert conn message).
Proof. unfold log_alert. stable_tac. Qed.
Local Hint Resolve stable_log_alert : stable.

Lemma stable_send_alert_rest conn message :
  stable R (sent ← is_alert_sent conn message;
            (if negb sent then
               log_alert conn message;;
               show (StWarning ("Alert: " +:+ message))
             else
               show (StInfo "Alert already sent for this issue."));;
            conn_close conn).
Proof. stable_tac. Qed.
End Ledger.

#[local] Instance quiet_preorder : PreOrder quiet.
Proof.
  split; [done|]. intros w1 w2 w3 [? ?] [? ?]. split; congruence.
Qed.

#[local] Instance quiet_blind : Blind quiet.
Proof. split; try apply _; intros; by repeat split. Qed.

#[local] Instance fetch_frame_preorder : PreOrder fetch_frame.
Proof.
  split; [done|]. intros w1 w2 w3 (?&?&?&?&?&?) (?&?&?&?&?&?).
  repeat split; congruence.
Qed.

#[local] Instance fetch_frame_blind : Blind fetch_frame.
Proof. split; try apply _; intros; by repeat split. Qed.

#[local] Instance calls_grow_preorder : PreOrder calls_grow.
Proof.
  split; [intros w; by unfold calls_grow|].
  intros w1 w2 w3 ??. unfold calls_grow in *. by etrans.
Qed.

#[local] Instance calls_grow_blind : LedgerBlind calls_grow.
Proof.
  split; [split|..]; try apply _; intros; unfold calls_grow; simpl;
    try done.
  by apply prefix_app_r.
Qed.

(** ** The memoised fetch *)

Lemma calls_after_connect {A} (k : nat → M A) env w :
  (∀ conn, stable calls_grow (k conn)) →
  ∃ rest, calls ((get_snowflake_connection ≫= k) env w).2
          = calls w ++ (next_conn w, OpConnect) :: rest.
Proof.
  intros Hk. unfold_connector. unfold_monad. simpl.
  destruct (faults env (next_conn w) OpConnect); simpl.
  - by exists [].
  - match goal with
    | |- context [k _ _ ?w1] =>
        destruct (Hk (next_conn w) env w1) as [rest Hrest]
    end.
    simpl in Hrest. exists rest. rewrite Hrest, <- app_assoc. done.
Qed.

(** The body of [run_query] starts by asking for a connection. *)
Lemma run_query_body_calls q env w :
  ∃ rest, calls (run_query_body q env w).2
          = calls w ++ (next_conn w, OpConnect) :: rest.
Proof.
  unfold run_query_body. apply calls_after_connect. intros conn. stable_tac.
Qed.

(** Without an entry for the query, [run_query] runs its body. *)
Lemma run_query_miss_calls env w q :
  cache w !! q = None →
  calls (run_query q env w).2 = calls (run_query_body q env w).2.
Proof.
  intros Hq. unfold run_query, st_cache_data. unfold_monad. rewrite Hq.
  by destruct (run_query_body q env w) as [[df|e] w1].
Qed.


(** ** Runs of the script *)

Lemma lookup_auto_refresh (b : bool) (m : gmap string bool) :
  default false (<["auto_refresh" := b]> m !! "auto_refresh") = b.
Proof. by rewrite lookup_insert_eq. Qed.

Lemma header_run env button w :
  header button env w = (Ok tt, header_world button w).
Proof.
  unfold header, header_world, gx_get_context, status_line, auto_refresh.
  unfold_monad. simpl.
  destruct (session_state w !! "auto_refresh") as [v|] eqn:Hv; simpl.
  - destruct button; simpl.
    + rewrite Hv, lookup_insert_eq. simpl. rewrite <- !app_assoc. done.
    + rewrite Hv. simpl. rewrite (insert_id _ _ _ Hv), <- !app_assoc. done.
  - destruct button; simpl.
    + rewrite !lookup_insert_eq. simpl. rewrite insert_insert_eq, <- !app_assoc. done.
    + rewrite !lookup_insert_eq. simpl. rewrite <- !app_assoc. done.
Qed.

Lemma header_auto_refresh button w :
  auto_refresh (header_world button w) = xorb button (auto_refresh w).
Proof. unfold auto_refresh at 1. simpl. apply lookup_auto_refresh. Qed.

(** C9: a run that finds the refresh state off, once the toggle button is
    handled, shows the title, the status line and the current time and
    ends there.  It makes no connector call and opens no connection, so
    neither the data source nor the alert ledger is contacted; nothing is
    validated, cached or recorded, and no rerun is asked for. *)
Theorem idle_run_shows_time_only env button w :
  auto_refresh (header button env w).2 = false →
  ∃ w',
    script button env w = (Ok Finished, w') ∧
    screen w' = screen w ++
      [StTitle "Data Anomaly Detection"; StWrite "Auto-refresh is OFF";
       StWrite ("Current time: " +:+ strftime env (now w))] ∧
    calls w' = calls w ∧ next_conn w' = next_conn w ∧
    open_conns w' = open_conns w ∧ cache w' = cache w ∧
    sent_alerts w' = sent_alerts w ∧ txn w' = txn w ∧
    gx_data_sources w' = [] ∧ gx_suites w' = [] ∧ now w' = now w.
Proof.
  rewrite header_run. simpl. intros Hidle.
  unfold script. unfold_monad. rewrite header_run, Hidle.
  unfold display_time. unfold_monad. simpl.
  eexists. split; [reflexivity|]. simpl.
  rewrite header_auto_refresh in Hidle. rewrite Hidle.
  rewrite <- app_assoc. done.
Qed.

(** C8: when the fetch of an active run raises, the run shows the error
    after the time, validates nothing, makes no connector call after the
    failed fetch and leaves the ledger alone; it sleeps its ten seconds,
    asks for the rerun, and the refresh state is still on for it. *)
Theorem failed_fetch_is_shown_and_loop_goes_on env button w e w2 :
  auto_refresh (header button env w).2 = true →
  run_query query env (at_fetch env button w) = (Raise e, w2) →
  ∃ w3,
    script button env w = (Ok Rerun, w3) ∧
    screen w3 = screen w ++
      [StTitle "Data Anomaly Detection"; StWrite "Auto-refresh is ON";
       StWrite ("Current time: " +:+ strftime env (now w));
       StError ("Error running query: " +:+ exn_msg e)] ∧
    gx_data_sources w3 = [] ∧ gx_suites w3 = [] ∧
    sent_alerts w3 = sent_alerts w ∧
    calls w3 = calls w2 ∧
    now w3 = now w + 10 ∧
    auto_refresh w3 = true ∧
    auto_refresh (header false env w3).2 = true.
Proof.
  unfold at_fetch, display_time. unfold_monad. rewrite header_run. simpl.
  intros Hactive Hfetch.
  match type of Hfetch with
  | run_query _ _ ?w1 = _ =>
      pose proof (stable_run_query fetch_frame query env w1) as Hframe
  end.
  rewrite Hfetch in Hframe. destruct Hframe as (Hscr & Hss & Hds & Hsu & Hsa & Hnow).
  simpl in *.
  unfold script. unfold_monad. rewrite header_run, Hactive.
  unfold cycle_body, time_sleep. unfold_monad. simpl.
  rewrite Hfetch. simpl.
  eexists. split; [reflexivity|]. simpl.
  rewrite header_auto_refresh in Hactive.
  rewrite Hscr, Hds, Hsu, Hsa, Hnow, Hactive.
  repeat split; try done.
  - by rewrite <- !app_assoc.
  - unfold auto_refresh, set_now, set_screen. cbn [session_state].
    rewrite Hss, Hactive. apply lookup_auto_refresh.
  - rewrite header_run. cbn [snd]. rewrite header_auto_refresh.
    unfold auto_refresh, set_now, set_screen. cbn [session_state].
    rewrite Hss, Hactive. by rewrite lookup_auto_refresh.
Qed.

Lemma idle_run_shows_time_only_witness :
  let env := healthy_env (λ _ _, []) in
  auto_refresh (header false env fresh_world).2 = false ∧
  ∃ w',
    script false env fresh_world = (Ok Finished, w') ∧
    screen w' = screen fresh_world ++
      [StTitle "Data Anomaly Detection"; StWrite "Auto-refresh is OFF";
       StWrite ("Current time: " +:+ strftime env (now fresh_world))] ∧
    calls w' = calls fresh_world ∧ next_conn w' = next_conn fresh_world ∧
    open_conns w' = open_conns fresh_world ∧ cache w' = cache fresh_world ∧
    sent_alerts w' = sent_alerts fresh_world ∧ txn w' = txn fresh_world ∧
    gx_data_sources w' = [] ∧ gx_suites w' = [] ∧ now w' = now fresh_world.
Proof.
  intros env. split; [reflexivity|].
  apply (idle_run_shows_time_only env false fresh_world). reflexivity.
Defined.

Lemma failed_fetch_is_shown_and_loop_goes_on_witness :
  let env := connect_fails_env in
  let e := mkExn DatabaseError "connection refused" in
  let w2 := (run_query query env (at_fetch env true fresh_world)).2 in
  auto_refresh (header true env fresh_world).2 = true ∧
  run_query query env (at_fetch env true fresh_world) = (Raise e, w2) ∧
  ∃ w3,
    script true env fresh_world = (Ok Rerun, w3) ∧
    screen w3 = screen fresh_world ++
      [StTitle "Data Anomaly Detection"; StWrite "Auto-refresh is ON";
       StWrite ("Current time: " +:+ strftime env (now fresh_world));
       StError ("Error running query: " +:+ exn_msg e)] ∧
    gx_data_sources w3 = [] ∧ gx_suites w3 = [] ∧
    sent_alerts w3 = sent_alerts fresh_world ∧
    calls w3 = calls w2 ∧
    now w3 = now fresh_world + 10 ∧
    auto_refresh w3 = true ∧
    auto_refresh (header false env w3).2 = true.
Proof.
  intros env e w2.
  assert (run_query query env (at_fetch env true fresh_world) = (Raise e, w2))
    as Hfetch by reflexivity.
  split; [reflexivity|]. split; [exact Hfetch|].
  apply (failed_fetch_is_shown_and_loop_goes_on env true fresh_world e w2);
    [reflexivity|exact Hfetch].
Defined.

(** No run of the script raises, whatever the outside does: an active run
    ends by asking for the rerun, an idle one by waiting. *)
Lemma script_never_raises env button w :
  ∃ w', script button env w
        = (Ok (if auto_refresh (header_world button w) then Rerun else Finished),
           w').
Proof.
  unfold script. unfold_monad. rewrite header_run.
  destruct (auto_refresh (header_world button w)).
  - unfold display_time, time_sleep. unfold_monad. simpl.
    destruct (cycle_body env _) as [[[]|e] w1]; simpl; eauto.
  - unfold display_time. unfold_monad. simpl. eauto.
Qed.

(** ** The connection of [run_query] *)

(** When the cursor is created and the two [close] calls go through, the
    connection is closed whatever [execute] and [fetchall] do. *)
Lemma run_query_body_closes env w q :
  let conn := next_conn w in
  faults env conn OpConnect = None →
  faults env conn OpCursor = None →
  faults env conn OpCursorClose = None →
  faults env conn OpClose = None →
  conn ∉ open_conns (run_query_body q env w).2.
Proof.
  intros conn H1 H2 H3 H4. subst conn.
  unfold run_query_body. unfold_connector. unfold_monad. simpl.
  rewrite H1. simpl. rewrite H2. simpl.
  destruct (faults env (next_conn w) (OpExecute (Query q))); simpl.
  - rewrite H3. simpl. rewrite H4. simpl.
    apply not_elem_of_difference. right. by apply elem_of_singleton.
  - destruct (faults env (next_conn w) OpFetch); simpl;
      rewrite H3; simpl; rewrite H4; simpl;
      apply not_elem_of_difference; right; by apply elem_of_singleton.
Qed.

(** When [conn.cursor()] raises, the [finally] block fails on the unbound
    [cursor] and the connection stays open. *)
Lemma run_query_body_cursor_raises env w q msg :
  let conn := next_conn w in
  faults env conn OpConnect = None →
  faults env conn OpCursor = Some msg →
  exn_class <$> (match (run_query_body q env w).1 with
                 | Raise e => Some e
                 | Ok _ => None
                 end) = Some UnboundLocalError ∧
  conn ∈ open_conns (run_query_body q env w).2.
Proof.
  intros conn H1 H2. subst conn.
  unfold run_query_body. unfold_connector. unfold_monad. simpl.
  rewrite H1. simpl. rewrite H2. simpl. split; [done|].
  apply elem_of_union. left. by apply elem_of_singleton.
Qed.

(** C7, at a data source whose [conn.cursor()] raises: [run_query] opens
    connection 0, fails on the unbound [cursor] in its [finally] block and
    returns without [conn.close()]: the connection is still open. *)
Theorem run_query_cursor_failure_leaves_connection_open :
  let out := run_query query cursor_fails_env fresh_world in
  exn_class <$> (match out.1 with Raise e => Some e | Ok _ => None end)
    = Some UnboundLocalError ∧
  elements (open_conns out.2) = [0] ∧
  calls out.2 = [(0, OpConnect); (0, OpCursor)].
Proof. vm_compute. done. Qed.

(** The same when [cursor.close()] raises: [conn.close()] is not reached. *)
Lemma run_query_cursor_close_failure_leaves_connection_open :
  let out := run_query query cursor_close_fails_env fresh_world in
  out.1 = Raise (mkExn DatabaseError "close failed") ∧
  elements (open_conns out.2) = [0] ∧
  (0, OpClose) ∉ calls out.2.
Proof.
  vm_compute. split; [done|]. split; [done|].
  intros H. repeat (apply elem_of_cons in H as [H|H]; [discriminate|]).
  by apply elem_of_nil in H.
Qed.


(** ** The anomaly check *)

Lemma q_max_l x y : Qle x (q_max x y).
Proof.
  unfold q_max. destruct (Qle_bool x y) eqn:E.
  - by apply Qle_bool_iff.
  - apply Qle_refl.
Qed.

Lemma q_max_r x y : Qle y (q_max x y).
Proof.
  unfold q_max. destruct (Qle_bool x y) eqn:E.
  - apply Qle_refl.
  - apply Qlt_le_weak, Qnot_le_lt. intros H%Qle_bool_iff. congruence.
Qed.

Lemma q_max_cases x y : q_max x y = x ∨ q_max x y = y.
Proof. unfold q_max. destruct (Qle_bool x y); auto. Qed.

Lemma nan_max_None values :
  nan_max values = None → ∀ v, Some v ∉ values.
Proof.
  induction values as [|[x|] values IH]; simpl; intros Hmax v Hin.
  - by apply elem_of_nil in Hin.
  - destruct (nan_max values); discriminate.
  - apply elem_of_cons in Hin as [?|Hin]; [discriminate|]. by apply (IH Hmax v).
Qed.

Lemma nan_max_Some values m :
  nan_max values = Some m →
  Some m ∈ values ∧ ∀ v, Some v ∈ values → Qle v m.
Proof.
  revert m. induction values as [|[x|] values IH]; simpl; intros m Hmax.
  - discriminate.
  - destruct (nan_max values) as [y|] eqn:Hrest.
    + destruct (IH y eq_refl) as [Hy Hle]. injection Hmax as <-. split.
      * destruct (q_max_cases x y) as [-> | ->]; [left|by right].
      * intros v [[= ->]|Hin]%elem_of_cons; [apply q_max_l|].
        eapply Qle_trans; [by apply Hle|apply q_max_r].
    + injection Hmax as <-. split; [left|].
      intros v [[= ->]|Hin]%elem_of_cons; [apply Qle_refl|].
      by destruct (nan_max_None values Hrest v).
  - destruct (IH m Hmax) as [Hm Hle]. split; [by right|].
    intros v [?|Hin]%elem_of_cons; [discriminate|]. by apply Hle.
Qed.

Lemma elem_of_numeric_values v df :
  v ∈ numeric_values df ↔
  ∃ name values, (name, NumberSeries values) ∈ df ∧ Some v ∈ values.
Proof.
  unfold numeric_values. rewrite list_elem_of_join. split.
  - intros (l & Hv & Hl). apply list_elem_of_fmap in Hl as ([name s] & -> & Hcol).
    destruct s as [values|values]; simpl in Hv; [|by apply elem_of_nil in Hv].
    apply list_elem_of_omap in Hv as (o & Ho & Hid). simpl in Hid. subst o.
    eauto.
  - intros (name & values & Hcol & Hv).
    exists (omap id values). split.
    + apply list_elem_of_omap. by exists (Some v).
    + apply list_elem_of_fmap. by exists (name, NumberSeries values).
Qed.

Lemma elem_of_column_maxima x df :
  x ∈ df_max (select_dtypes_number df) ↔
  ∃ name values, (name, NumberSeries values) ∈ df ∧ nan_max values = x.
Proof.
  unfold df_max, select_dtypes_number. rewrite list_elem_of_fmap. split.
  - intros ([name s] & -> & Hcol). apply list_elem_of_filter in Hcol as [Hnum Hcol].
    destruct s as [values|values]; [|discriminate]. eauto.
  - intros (name & values & Hcol & <-). exists (name, NumberSeries values).
    split; [done|]. by apply list_elem_of_filter.
Qed.

(** What the script compares with 6 is the maximum of the numeric values. *)
Lemma max_of_numeric_columns df m :
  nan_max (df_max (select_dtypes_number df)) = Some m →
  is_maximum m (numeric_values df).
Proof.
  intros [Hm Hle]%nan_max_Some.
  apply elem_of_column_maxima in Hm as (name & values & Hcol & Hmax).
  apply nan_max_Some in Hmax as [Hin Hcolle]. split.
  - apply elem_of_numeric_values. eauto.
  - intros v (name' & values' & Hcol' & Hv)%elem_of_numeric_values.
    destruct (nan_max values') as [m'|] eqn:Hmax'.
    + apply nan_max_Some in Hmax' as Hspec. destruct Hspec as [_ Hle'].
      eapply Qle_trans; [by apply Hle'|]. apply Hle.
      apply elem_of_column_maxima. eauto.
    + by destruct (nan_max_None values' Hmax' v).
Qed.

Lemma no_numeric_values df :
  nan_max (df_max (select_dtypes_number df)) = None → numeric_values df = [].
Proof.
  intros Hnone. destruct (numeric_values df) as [|v l] eqn:Hv; [done|].
  assert (v ∈ numeric_values df) as Hin by (rewrite Hv; left).
  apply elem_of_numeric_values in Hin as (name & values & Hcol & Hin).
  destruct (nan_max values) as [m|] eqn:Hmax.
  - destruct (nan_max_None _ Hnone m). apply elem_of_column_maxima. eauto.
  - by destruct (nan_max_None values Hmax v).
Qed.

Lemma gt_6_iff df :
  gt_6 (nan_max (df_max (select_dtypes_number df))) = true ↔ max_exceeds_6 df.
Proof.
  unfold max_exceeds_6. split.
  - destruct (nan_max _) as [m|] eqn:Hmax; simpl; [|done].
    intros Hgt. exists m. split; [by apply max_of_numeric_columns|].
    apply Qnot_le_lt. intros Hle%Qle_bool_iff. rewrite Hle in Hgt. done.
  - intros (m & [Hin Hle] & Hgt).
    destruct (nan_max _) as [m'|] eqn:Hmax; simpl.
    + apply max_of_numeric_columns in Hmax as [_ Hle'].
      apply negb_true_iff, not_true_is_false. intros Hm'%Qle_bool_iff.
      apply (Qlt_not_le 6 m Hgt). eapply Qle_trans; [by apply Hle'|done].
    + apply no_numeric_values in Hmax. rewrite Hmax in Hin.
      by apply elem_of_nil in Hin.
Qed.

Lemma rectangular_not_empty df name values v :
  rectangular df → (name, NumberSeries values) ∈ df → Some v ∈ values →
  df_empty df = false.
Proof.
  intros Hrect Hcol Hv. unfold rectangular in Hrect.
  rewrite Forall_forall in Hrect. specialize (Hrect _ Hcol). simpl in Hrect.
  assert (length values ≠ 0) as Hlen.
  { destruct values; [by apply elem_of_nil in Hv|done]. }
  unfold df_empty. destruct df as [|[n s] df]; [by apply elem_of_nil in Hcol|].
  simpl in *. apply Nat.eqb_neq. congruence.
Qed.

Lemma max_exceeds_6_not_empty df :
  rectangular df → max_exceeds_6 df → df_empty df = false.
Proof.
  intros Hrect (m & [Hin _] & _).
  apply elem_of_numeric_values in Hin as (name & values & Hcol & Hv).
  by eapply rectangular_not_empty.
Qed.

(** [send_alert] starts by asking for a connection. *)
Lemma send_alert_calls message env w :
  ∃ rest, calls (send_alert message env w).2
          = calls w ++ (next_conn w, OpConnect) :: rest.
Proof.
  unfold send_alert. apply calls_after_connect. intros conn.
  apply stable_send_alert_rest. apply _.
Qed.

Lemma anomaly_check_alerts df :
  rectangular df → max_exceeds_6 df →
  anomaly_check df = send_alert alert_message.
Proof.
  intros Hrect Hmax. unfold anomaly_check.
  rewrite (max_exceeds_6_not_empty df Hrect Hmax). simpl.
  by rewrite (proj2 (gt_6_iff df) Hmax).
Qed.

Lemma anomaly_check_passes df env w :
  ¬ max_exceeds_6 df →
  ∃ w', anomaly_check df env w = (Ok tt, w') ∧
        calls w' = calls w ∧ next_conn w' = next_conn w ∧
        sent_alerts w' = sent_alerts w ∧
        count_warnings (screen w') = count_warnings (screen w) ∧
        count_infos (screen w') = count_infos (screen w).
Proof.
  intros Hmax. unfold anomaly_check.
  destruct (gt_6 _) eqn:Hgt; [by apply gt_6_iff in Hgt|].
  destruct (negb (df_empty df)); unfold_monad; simpl.
  - eexists. split; [done|]. simpl. unfold count_warnings, count_infos.
    rewrite !filter_app. simpl. rewrite !length_app. simpl. by rewrite !Nat.add_0_r.
  - eauto 10.
Qed.

(** C4: on a result whose columns have one length, the anomaly check
    turns to the alert ledger exactly when the maximum over the numeric
    columns is greater than 6.  In that case it is [send_alert] with the
    fixed message; otherwise it returns without a connector call, a
    record or an alert. *)
Theorem anomaly_iff_max_exceeds_6 df env w :
  rectangular df →
  (calls (anomaly_check df env w).2 ≠ calls w ↔ max_exceeds_6 df) ∧
  (max_exceeds_6 df → anomaly_check df = send_alert alert_message) ∧
  (¬ max_exceeds_6 df →
   ∃ w', anomaly_check df env w = (Ok tt, w') ∧
         sent_alerts w' = sent_alerts w ∧
         count_warnings (screen w') = count_warnings (screen w)).
Proof.
  intros Hrect. split; [split|split].
  - intros Hcalls. destruct (gt_6 (nan_max (df_max (select_dtypes_number df))))
      eqn:Hgt; [by apply gt_6_iff|].
    assert (¬ max_exceeds_6 df) as Hno.
    { intros Hmax%gt_6_iff. congruence. }
    destruct (anomaly_check_passes df env w Hno) as (w' & Hrun & Hsame & _).
    rewrite Hrun in Hcalls. done.
  - intros Hmax. rewrite (anomaly_check_alerts df Hrect Hmax).
    destruct (send_alert_calls alert_message env w) as [rest ->].
    intros Heq. apply (f_equal length) in Heq.
    rewrite length_app in Heq. simpl in Heq. lia.
  - by apply anomaly_check_alerts.
  - intros Hno. destruct (anomaly_check_passes df env w Hno)
      as (w' & Hrun & _ & _ & Hsent & Hwarn & _). eauto.
Qed.

Lemma frame_of_rectangular values : rectangular (frame_of values).
Proof. unfold rectangular, frame_of. by repeat constructor. Qed.

(** A maximum of 7 raises the anomaly, one of 6 does not. *)
Example max_exceeds_6_at_7 : max_exceeds_6 (frame_of [1; 2; 7]%Q).
Proof. by apply gt_6_iff. Qed.

Example max_not_exceeds_6_at_6 : ¬ max_exceeds_6 (frame_of [1; 2; 6]%Q).
Proof. intros H%gt_6_iff. done. Qed.

Lemma anomaly_iff_max_exceeds_6_witness :
  let df := frame_of [1; 2; 7]%Q in
  let env := healthy_env (λ _ _, df) in
  rectangular df ∧
  (calls (anomaly_check df env fresh_world).2 ≠ calls fresh_world
   ↔ max_exceeds_6 df) ∧
  (max_exceeds_6 df → anomaly_check df = send_alert alert_message) ∧
  (¬ max_exceeds_6 df →
   ∃ w', anomaly_check df env fresh_world = (Ok tt, w') ∧
         sent_alerts w' = sent_alerts fresh_world ∧
         count_warnings (screen w') = count_warnings (screen fresh_world)).
Proof.
  intros df env. split; [apply frame_of_rectangular|].
  apply (anomaly_iff_max_exceeds_6 df env fresh_world).
  apply frame_of_rectangular.
Defined.

(** The cases of the anomaly check on whole runs of the script: values
    1, 2, 7 end in the alert; values 1, 2, 6, a frame without a numeric
    column and a frame without rows end in none and leave the ledger
    alone. *)
Example run_with_7_alerts :
  let w := after_run (healthy_env (λ _ _, frame_of [1; 2; 7]%Q)) true fresh_world in
  last (screen w)
    = Some (StWarning "Alert: One or more numeric columns have values greater than 6.") ∧
  sent_alerts w = [alert_message].
Proof. vm_compute. done. Qed.

Example run_with_6_does_not_alert :
  let w := after_run (healthy_env (λ _ _, frame_of [1; 2; 6]%Q)) true fresh_world in
  last (screen w) = Some (StWrite "No anomalies detected.") ∧
  sent_alerts w = [] ∧ next_conn w = 1.
Proof. vm_compute. done. Qed.

Example run_without_numeric_column_does_not_alert :
  let df := [("NAME", ObjectSeries [Some "7"; Some "8"])] in
  let w := after_run (healthy_env (λ _ _, df)) true fresh_world in
  last (screen w) = Some (StWrite "No anomalies detected.") ∧
  sent_alerts w = [] ∧ next_conn w = 1.
Proof. vm_compute. done. Qed.

Example run_without_rows_does_not_alert :
  let df := [("EMPLOYEE_ID", NumberSeries [])] in
  let w := after_run (healthy_env (λ _ _, df)) true fresh_world in
  last (screen w) = Some (StWriteBool true) ∧
  sent_alerts w = [] ∧ next_conn w = 1.
Proof. vm_compute. done. Qed.

(** ** Validation *)

Lemma column_elem name df s : column name df = Some s → (name, s) ∈ df.
Proof.
  induction df as [|[n s'] df IH]; simpl; [done|].
  destruct (decide (n = name)) as [->|Hne].
  - intros [= ->]. left.
  - intros H. right. by apply IH.
Qed.

Lemma validate_success df rules :
  success (validate df rules) = true ↔ ∀ r, r ∈ rules → rule_passes df r = true.
Proof.
  unfold validate. simpl. induction rules as [|r rules IH]; simpl.
  - split; [|done]. intros _ r Hr. by apply elem_of_nil in Hr.
  - rewrite andb_true_iff, IH. split.
    + intros [Hr Hall] r' [->|Hin]%elem_of_cons; auto.
    + intros Hall. split; [apply Hall; left|]. intros r' Hin. apply Hall. by right.
Qed.

Lemma validate_results df rules r :
  r ∈ rules → (r, rule_passes df r) ∈ results (validate df rules).
Proof.
  intros Hr. unfold validate. simpl.
  apply list_elem_of_fmap. by exists r.
Qed.

(** [validate_data] raises nothing and reports on the one rule of its
    suite. *)
Lemma validate_data_run df env w :
  ∃ w', validate_data df env w = (Ok (validate df employee_suite), w') ∧
        gx_data_sources w' = gx_data_sources w ++ ["employee"] ∧
        quiet w w' ∧ calls w' = calls w ∧ next_conn w' = next_conn w.
Proof. unfold validate_data. unfold_monad. simpl. by eexists. Qed.

Lemma zero_rows_series df name s :
  rectangular df → df_len df = 0 → (name, s) ∈ df →
  is_null_free s = true ∧ series_max s = None.
Proof.
  intros Hrect Hlen Hcol. unfold rectangular in Hrect.
  rewrite Forall_forall in Hrect. specialize (Hrect _ Hcol). simpl in Hrect.
  rewrite Hlen in Hrect. destruct s as [[|]|[|]]; done.
Qed.

(** C5, as far as it holds: on a result with no rows, every rule set whose
    target columns are in the result is reported as passed. *)
Theorem zero_rows_validate_passes df rules :
  rectangular df → df_len df = 0 →
  Forall (target_present df) rules →
  success (validate df rules) = true.
Proof.
  intros Hrect Hlen Hpresent. apply validate_success. intros r Hr.
  rewrite Forall_forall in Hpresent. specialize (Hpresent r Hr).
  unfold target_present in Hpresent.
  destruct r as [name|[name|] threshold]; simpl in *.
  - destruct Hpresent as [s Hs]. rewrite Hs.
    by destruct (zero_rows_series df name s Hrect Hlen (column_elem _ _ _ Hs)).
  - destruct Hpresent as [s Hs]. rewrite Hs.
    destruct (zero_rows_series df name s Hrect Hlen (column_elem _ _ _ Hs))
      as [_ ->]. done.
  - apply forallb_forall. intros x Hx%list_elem_of_In.
    apply elem_of_column_maxima in Hx as (name & values & Hcol & <-).
    destruct (zero_rows_series df name _ Hrect Hlen Hcol) as [_ Hmax].
    simpl in Hmax. by rewrite Hmax.
Qed.

Lemma zero_rows_validate_passes_witness :
  let df := [("EMPLOYEE_ID", NumberSeries []); ("NAME", ObjectSeries [])] in
  rectangular df ∧ df_len df = 0 ∧ Forall (target_present df) employee_suite ∧
  success (validate df employee_suite) = true.
Proof.
  intros df.
  assert (rectangular df) as Hrect by (by repeat constructor).
  assert (Forall (target_present df) employee_suite) as Hpresent.
  { repeat constructor. by exists (NumberSeries []). }
  split; [exact Hrect|]. split; [reflexivity|]. split; [exact Hpresent|].
  exact (zero_rows_validate_passes df employee_suite Hrect eq_refl Hpresent).
Defined.

(** C5 as stated fails on a result with no rows that lacks the column of
    the suite: [validate_data] reports a failure. *)
Lemma zero_rows_without_target_column_fails :
  let df := [("NAME", ObjectSeries [])] in
  df_len df = 0 ∧
  (validate_data df (healthy_env (λ _ _, df)) fresh_world).1
    = Ok (mkReport false [(ExpectColumnValuesToNotBeNull "EMPLOYEE_ID", false)]).
Proof. vm_compute. done. Qed.

(** C6: a rule whose target column is not in the result is reported as
    failed and makes the report unsuccessful; [validate_data] returns its
    report and raises nothing. *)
Theorem missing_target_column_fails_closed df rules r name :
  r ∈ rules → rule_target r = Some name → column name df = None →
  success (validate df rules) = false ∧
  (r, false) ∈ results (validate df rules) ∧
  ∀ env w, ∃ w', validate_data df env w = (Ok (validate df employee_suite), w').
Proof.
  intros Hr Htarget Hmissing.
  assert (rule_passes df r = false) as Hfail.
  { destruct r as [n|[n|] threshold]; simpl in *; simplify_eq; by rewrite Hmissing. }
  split; [|split].
  - apply not_true_is_false. intros Hall.
    rewrite validate_success in Hall. specialize (Hall r Hr). congruence.
  - rewrite <- Hfail. by apply validate_results.
  - intros env w. destruct (validate_data_run df env w) as (w' & Hrun & _). eauto.
Qed.

Lemma missing_target_column_fails_closed_witness :
  let df := [("NAME", ObjectSeries [Some "Ada"; None])] in
  let r := ExpectColumnValuesToNotBeNull "EMPLOYEE_ID" in
  r ∈ employee_suite ∧ rule_target r = Some "EMPLOYEE_ID" ∧
  column "EMPLOYEE_ID" df = None ∧
  success (validate df employee_suite) = false ∧
  (r, false) ∈ results (validate df employee_suite) ∧
  ∀ env w, ∃ w', validate_data df env w = (Ok (validate df employee_suite), w').
Proof.
  intros df r.
  assert (r ∈ employee_suite) as Hr by left.
  split; [exact Hr|]. split; [reflexivity|]. split; [reflexivity|].
  exact (missing_target_column_fails_closed df employee_suite r "EMPLOYEE_ID"
           Hr eq_refl eq_refl).
Defined.

(** ** The alert ledger *)

Lemma count_alerts_zero m rows : count_alerts m rows = 0 ↔ m ∉ rows.
Proof.
  unfold count_alerts. rewrite length_zero_iff_nil. split.
  - intros Hnil Hin. exact (filter_nil_not_elem_of _ _ m Hnil eq_refl Hin).
  - intros Hnot. induction rows as [|row rows IH]; [done|].
    rewrite filter_cons. destruct (decide (row = m)) as [->|Hne].
    + destruct Hnot. left.
    + apply IH. intros Hin. apply Hnot. by right.
Qed.

Lemma visible_alerts_new_session conn w f :
  visible_alerts conn (set_txn (delete conn (txn w)) (f w)) = sent_alerts (f w).
Proof.
  unfold visible_alerts. simpl. rewrite lookup_delete_eq. simpl. apply app_nil_r.
Qed.

Lemma log_alert_records env w conn m :
  (∀ op, faults env conn op = None) →
  txn w !! conn = None → m ∉ sent_alerts w →
  ∃ w', log_alert conn m env w = (Ok tt, w') ∧
        sent_alerts w' = sent_alerts w ++ [m] ∧ screen w' = screen w ∧
        next_conn w' = next_conn w ∧ txn w' !! conn = None.
Proof.
  intros Hok Htxn Hnew. unfold log_alert. unfold_connector. unfold run_stmt.
  unfold_monad. simpl. rewrite !Hok. simpl. rewrite Htxn. simpl.
  rewrite ?Hok. simpl. unfold visible_alerts. simpl.
  destruct (<[conn:=[]]> (txn w) !! conn) as [pending|] eqn:E;
    rewrite lookup_insert_eq in E; [|done]. injection E as <-. simpl.
  rewrite bool_decide_eq_false_2 by (by rewrite app_nil_r).
  rewrite andb_false_r. simpl. rewrite ?Hok. simpl.
  eexists. split; [reflexivity|]. simpl.
  rewrite lookup_insert_eq. simpl. by rewrite lookup_delete_eq.
Qed.

Lemma send_alert_again env w m :
  m ∈ sent_alerts w → (∀ op, faults env (next_conn w) op = None) →
  ∃ w', send_alert m env w = (Ok tt, w') ∧
        screen w' = screen w ++ [StInfo "Alert already sent for this issue."] ∧
        sent_alerts w' = sent_alerts w ∧ next_conn w' = S (next_conn w).
Proof.
  intros Hin Hok. unfold send_alert, is_alert_sent. unfold_connector. unfold run_stmt. unfold_monad.
  simpl. rewrite !Hok. simpl.
  match goal with |- context [count_alerts m ?l] => destruct (count_alerts m l) eqn:Hcount end.
  { apply count_alerts_zero in Hcount. destruct Hcount.
    unfold visible_alerts. simpl. apply elem_of_app. by left. }
  simpl. rewrite ?Hok. simpl. eauto.
Qed.

Lemma send_alert_first env w m :
  m ∉ sent_alerts w → (∀ op, faults env (next_conn w) op = None) →
  ∃ w', send_alert m env w = (Ok tt, w') ∧
        screen w' = screen w ++ [StWarning ("Alert: " +:+ m)] ∧
        sent_alerts w' = sent_alerts w ++ [m] ∧ next_conn w' = S (next_conn w).
Proof.
  intros Hnew Hok. unfold send_alert, is_alert_sent. unfold_connector. unfold run_stmt. unfold_monad.
  simpl. rewrite !Hok. simpl.
  match goal with |- context [count_alerts m ?l] => destruct (count_alerts m l) eqn:Hcount end.
  2:{ assert (count_alerts m (sent_alerts w) = 0) as H0 by (by apply count_alerts_zero).
      unfold visible_alerts in Hcount. simpl in Hcount. rewrite lookup_delete_eq in Hcount.
      simpl in Hcount. rewrite app_nil_r in Hcount. congruence. }
  simpl.
  match goal with |- context [log_alert _ _ _ ?w1] =>
    destruct (log_alert_records env w1 (next_conn w) m Hok) as (w2 & -> & Hsent & Hscreen & Hnext & Htxn) end.
  { simpl. apply lookup_delete_eq. }
  { done. }
  rewrite ?Hok. simpl. eexists. split; [reflexivity|]. simpl.
  rewrite Hsent, Hscreen, Hnext. done.
Qed.

Lemma count_alerts_new m rows :
  m ∉ rows → count_alerts m (rows ++ [m]) = 1.
Proof.
  intros Hnew. unfold count_alerts. rewrite filter_app, length_app.
  apply count_alerts_zero in Hnew. unfold count_alerts in Hnew. rewrite Hnew.
  rewrite filter_cons. by destruct (decide (m = m)).
Qed.

(** C1: on a ledger that holds no record of [m], with a connector that
    answers, the first [send_alert m] shows the alert as a warning, the
    second shows the notice instead, and the ledger ends with the one
    record of [m] added. *)
Theorem send_alert_twice env w m :
  m ∉ sent_alerts w →
  (∀ op, faults env (next_conn w) op = None) →
  (∀ op, faults env (S (next_conn w)) op = None) →
  ∃ w1 w2,
    send_alert m env w = (Ok tt, w1) ∧
    send_alert m env w1 = (Ok tt, w2) ∧
    screen w1 = screen w ++ [StWarning ("Alert: " +:+ m)] ∧
    screen w2 = screen w1 ++ [StInfo "Alert already sent for this issue."] ∧
    sent_alerts w2 = sent_alerts w ++ [m] ∧
    count_alerts m (sent_alerts w2) = 1.
Proof.
  intros Hnew Hfirst Hsecond.
  destruct (send_alert_first env w m Hnew Hfirst)
    as (w1 & Hrun1 & Hscreen1 & Hsent1 & Hnext1).
  assert (m ∈ sent_alerts w1) as Hin.
  { rewrite Hsent1. apply elem_of_app. right. left. }
  rewrite <- Hnext1 in Hsecond.
  destruct (send_alert_again env w1 m Hin Hsecond)
    as (w2 & Hrun2 & Hscreen2 & Hsent2 & _).
  exists w1, w2. repeat split; try done.
  - congruence.
  - rewrite Hsent2, Hsent1. by apply count_alerts_new.
Qed.

Lemma send_alert_twice_witness :
  let env := healthy_env (λ _ _, []) in
  (alert_message ∉ sent_alerts fresh_world) ∧
  ∃ w1 w2,
    send_alert alert_message env fresh_world = (Ok tt, w1) ∧
    send_alert alert_message env w1 = (Ok tt, w2) ∧
    screen w1 = screen fresh_world ++ [StWarning ("Alert: " +:+ alert_message)] ∧
    screen w2 = screen w1 ++ [StInfo "Alert already sent for this issue."] ∧
    sent_alerts w2 = sent_alerts fresh_world ++ [alert_message] ∧
    count_alerts alert_message (sent_alerts w2) = 1.
Proof.
  intros env.
  assert (alert_message ∉ sent_alerts fresh_world) as Hnew.
  { simpl. apply not_elem_of_nil. }
  split; [exact Hnew|].
  apply (send_alert_twice env fresh_world alert_message Hnew); reflexivity.
Defined.

(** ** Callers side by side *)

(** One caller alone, stepped to its end, is [send_alert]. *)
Lemma caller_alone_is_send_alert env message w :
  run_schedule env message [0; 0; 0; 0; 0] ([AtConnect], w)
  = ([match (send_alert message env w).1 with
      | Ok _ => Returned
      | Raise e => Raised e
      end], (send_alert message env w).2).
Proof.
  unfold run_schedule, config_step, caller_step, send_alert. unfold_monad. simpl.
  destruct (get_snowflake_connection env w) as [[conn|e] w1]; simpl; [|done].
  destruct (is_alert_sent conn message env w1) as [[[|]|e] w2]; simpl; [| |done].
  - destruct (conn_close conn env _) as [[[]|e] w3]; simpl; done.
  - destruct (log_alert conn message env w2) as [[[]|e] w3]; simpl; [|done].
    destruct (conn_close conn env _) as [[[]|e] w4]; simpl; done.
Qed.

(** C3, at two callers of [send_alert] with the same message on a ledger
    that enforces uniqueness: both connect and check before either one
    records.  Both find no record; the second insert is refused and rolled
    back, and still both callers show the alert; nobody is told that it
    had been sent.  One record is left. *)
Theorem racing_callers_both_show_the_alert :
  let c := run_schedule (healthy_env (λ _ _, [])) alert_message
             [0; 1; 0; 1; 0; 1; 0; 1; 0; 1] ([AtConnect; AtConnect], fresh_world) in
  c.1 = [Returned; Returned] ∧
  screen c.2 = [StWarning ("Alert: " +:+ alert_message);
                StWarning ("Alert: " +:+ alert_message)] ∧
  count_infos (screen c.2) = 0 ∧
  sent_alerts c.2 = [alert_message] ∧
  (1, OpExecute Rollback) ∈ calls c.2.
Proof.
  vm_compute. repeat split; try done.
  repeat first [by left | right].
Qed.

(** Without the constraint on the table the same race leaves two records
    as well. *)
Example racing_callers_without_constraint :
  let c := run_schedule unconstrained_env alert_message
             [0; 1; 0; 1; 0; 1; 0; 1; 0; 1] ([AtConnect; AtConnect], fresh_world) in
  c.1 = [Returned; Returned] ∧
  count_warnings (screen c.2) = 2 ∧
  sent_alerts c.2 = [alert_message; alert_message].
Proof. vm_compute. done. Qed.

(** One after the other, the second caller is told that the alert was
    sent. *)
Example callers_in_turn :
  let c := run_schedule (healthy_env (λ _ _, [])) alert_message
             [0; 0; 0; 0; 0; 1; 1; 1; 1] ([AtConnect; AtConnect], fresh_world) in
  c.1 = [Returned; Returned] ∧
  screen c.2 = [StWarning ("Alert: " +:+ alert_message);
                StInfo "Alert already sent for this issue."] ∧
  sent_alerts c.2 = [alert_message].
Proof. vm_compute. done. Qed.

(** ** One alert and one record over a session *)

#[local] Instance alert_step_preorder message : PreOrder (alert_step message).
Proof.
  split.
  - intros w. by left.
  - intros w1 w2 w3 [[Hs12 Hc12]|(Hnew12 & Hs12 & Hc12)]
                    [[Hs23 Hc23]|(Hnew23 & Hs23 & Hc23)].
    + left. split; congruence.
    + right. rewrite Hs12 in Hnew23, Hs23. rewrite Hc12 in Hc23. done.
    + right. repeat split; [done|congruence..].
    + destruct Hnew23. rewrite Hs12. apply elem_of_app. right. left.
Qed.

#[local] Instance alert_step_blind message : Blind (alert_step message).
Proof. split; try apply _; intros; left; by split. Qed.

Lemma count_warnings_app shown s :
  count_warnings (shown ++ [s])
  = count_warnings shown + (if is_warning s then 1 else 0).
Proof.
  unfold count_warnings. rewrite filter_app, length_app. f_equal.
  rewrite filter_cons. by destruct (is_warning s).
Qed.

Lemma stable_show_plain R `{!Blind R} s :
  (∀ w, R w (set_screen (screen w ++ [s]) w)) → stable R (show s).
Proof. intros H env w. apply H. Qed.

Lemma quiet_show s w :
  is_warning s = false → quiet w (set_screen (screen w ++ [s]) w).
Proof.
  intros Hs. split; [done|]. simpl. rewrite count_warnings_app, Hs. lia.
Qed.

Lemma is_alert_sent_spec conn message env w :
  let out := is_alert_sent conn message env w in
  quiet w out.2 ∧ txn out.2 = txn w ∧
  (out.1 = Ok false → message ∉ sent_alerts out.2).
Proof.
  unfold is_alert_sent. unfold_connector. unfold run_stmt. unfold_monad. simpl.
  destruct (faults env conn OpCursor); simpl; [done|].
  destruct (faults env conn (OpExecute (SelectAlert message))); simpl; [done|].
  destruct (faults env conn OpFetch); simpl; [done|].
  destruct (count_alerts message _) eqn:Hcount; simpl; [|done].
  repeat split; try done. intros _.
  apply count_alerts_zero in Hcount. intros Hin. apply Hcount.
  unfold visible_alerts. simpl. apply elem_of_app. by left.
Qed.

Lemma log_alert_spec conn message env w :
  txn w !! conn = None → message ∉ sent_alerts w →
  let out := log_alert conn message env w in
  screen out.2 = screen w ∧
  ((out.1 = Ok tt ∧ sent_alerts out.2 = sent_alerts w ++ [message]) ∨
   ((∃ e, out.1 = Raise e) ∧ sent_alerts out.2 = sent_alerts w)).
Proof.
  intros Htxn Hnew. unfold log_alert. unfold_connector. unfold run_stmt.
  unfold_monad. simpl.
  destruct (faults env conn OpCursor); simpl; [eauto 10|].
  destruct (faults env conn (OpExecute Begin)); simpl; [eauto 10|].
  rewrite Htxn. simpl.
  destruct (faults env conn (OpExecute (InsertAlert message))); simpl;
    [eauto 10|].
  unfold visible_alerts. simpl.
  destruct (<[conn:=[]]> (txn w) !! conn) as [pending|] eqn:E;
    rewrite lookup_insert_eq in E; [|done]. injection E as <-. simpl.
  rewrite bool_decide_eq_false_2 by (by rewrite app_nil_r).
  rewrite andb_false_r. simpl.
  destruct (faults env conn (OpExecute Commit)); simpl; [eauto 10|].
  split; [done|]. left. split; [done|].
  by rewrite lookup_insert_eq.
Qed.

Lemma connect_spec env w :
  let out := get_snowflake_connection env w in
  quiet w out.2 ∧ ∀ conn, out.1 = Ok conn → txn out.2 !! conn = None.
Proof.
  unfold_connector. unfold_monad. simpl.
  destruct (faults env (next_conn w) OpConnect); simpl; [done|].
  split; [done|]. intros conn [= <-]. apply lookup_delete_eq.
Qed.

Lemma send_alert_step message : stable (alert_step message) (send_alert message).
Proof.
  intros env w. unfold send_alert. unfold_monad.
  pose proof (connect_spec env w) as [Hq1 Htxn1].
  destruct (get_snowflake_connection env w) as [[conn|e] w1]; simpl in *;
    [|by left].
  specialize (Htxn1 conn eq_refl).
  pose proof (is_alert_sent_spec conn message env w1) as (Hq2 & Htxn2 & Hnew).
  destruct (is_alert_sent conn message env w1) as [[sent|e] w2]; simpl in *;
    [|left; by etrans].
  assert (quiet w w2) as Hq by (by etrans).
  destruct sent; simpl.
  - etrans; [left; exact Hq|]. etrans; [|apply (stable_conn_close _ conn env)].
    left. by apply quiet_show.
  - specialize (Hnew eq_refl). rewrite <- Htxn2 in Htxn1.
    pose proof (log_alert_spec conn message env w2 Htxn1 Hnew) as [Hscr Hlog].
    destruct (log_alert conn message env w2) as [[[]|e] w3]; simpl in *.
    + destruct Hlog as [[_ Hsent]|[[e He] _]]; [|done].
      etrans; [left; exact Hq|]. etrans; [|apply (stable_conn_close _ conn env)].
      right. split; [done|]. split; [done|]. simpl.
      rewrite count_warnings_app, Hscr. simpl. lia.
    + destruct Hlog as [[? _]|[_ Hsent]]; [done|].
      etrans; [left; exact Hq|]. left. split; [done|]. by rewrite Hscr.
Qed.

Lemma stable_quiet_alert_step {A} message (c : M A) :
  stable quiet c → stable (alert_step message) c.
Proof. intros Hc env w. left. apply Hc. Qed.

Lemma quiet_header button : stable quiet (header button).
Proof.
  intros env w. rewrite header_run. split; [done|]. simpl.
  unfold count_warnings. rewrite filter_app. simpl. rewrite length_app. simpl. lia.
Qed.

Lemma quiet_show_plain s : is_warning s = false → stable quiet (show s).
Proof. intros Hs env w. by apply quiet_show. Qed.

Lemma quiet_display_time : stable quiet display_time.
Proof. intros env w. by apply quiet_show. Qed.

Lemma quiet_time_sleep secs : stable quiet (time_sleep secs).
Proof. intros env w. by split. Qed.

Lemma quiet_validate_data df : stable quiet (validate_data df).
Proof.
  intros env w. destruct (validate_data_run df env w) as (w' & -> & _ & Hq & _).
  done.
Qed.

Lemma anomaly_check_step df :
  stable (alert_step alert_message) (anomaly_check df).
Proof.
  unfold anomaly_check. destruct (negb (df_empty df)).
  - destruct (gt_6 _).
    + apply send_alert_step.
    + apply stable_quiet_alert_step. by apply quiet_show_plain.
  - apply stable_ret. apply _.
Qed.

#[local] Hint Resolve quiet_header quiet_show_plain quiet_display_time
  quiet_time_sleep quiet_validate_data anomaly_check_step
  stable_quiet_alert_step : stable.

Lemma cycle_body_step : stable (alert_step alert_message) cycle_body.
Proof. unfold cycle_body. stable_tac. Qed.

Lemma script_step button : stable (alert_step alert_message) (script button).
Proof.
  pose proof cycle_body_step. unfold script. stable_tac.
Qed.

Lemma run_session_step env buttons w :
  alert_step alert_message w (run_session env buttons w).
Proof.
  revert w. induction buttons as [|button buttons IH]; intros w; simpl.
  - reflexivity.
  - etrans; [apply (script_step button env w)|]. apply IH.
Qed.








(** Three cycles on data with an anomaly: one alert, then the notice. *)
Example three_anomalies_one_alert :
  let env := healthy_env (λ _ _, frame_of [1; 2; 7]%Q) in
  let w := run_session env [true; false; false] fresh_world in
  sent_alerts w = [alert_message] ∧
  count_warnings (screen w) = 1 ∧ count_infos (screen w) = 2.
Proof. vm_compute. done. Qed.

(** * Further properties *)

(** ** Footprints *)

#[local] Instance same_preorder {X} (part : World → X) : PreOrder (same part).
Proof. split; [done|]. intros w1 w2 w3 H12 H23. unfold same in *. congruence. Qed.

Ltac unfold_script :=
  unfold cycle_body, anomaly_check, send_alert, log_alert, is_alert_sent,
    validate_data, run_query, st_cache_data, run_query_body, display_time,
    time_sleep;
  unfold_connector; unfold run_stmt, show.

Ltac footprint :=
  repeat first [done | stable_step | progress (lazy beta iota zeta)].

Lemma cycle_body_session_state : stable (same session_state) cycle_body.
Proof. unfold_script. footprint. Qed.

Lemma script_auto_refresh env button w :
  auto_refresh (after_run env button w) = xorb button (auto_refresh w).
Proof.
  unfold after_run, script. unfold_monad. rewrite header_run.
  rewrite <- (header_auto_refresh button w).
  destruct (auto_refresh (header_world button w)) eqn:Hactive.
  - unfold display_time, time_sleep. unfold_monad. simpl.
    match goal with |- context [cycle_body env ?w1] =>
      pose proof (cycle_body_session_state env w1) as Hss;
      destruct (cycle_body env w1) as [[[]|e] w2] end;
      simpl in *; unfold same in Hss; simpl in Hss;
      unfold auto_refresh in *; simpl in *; by rewrite Hss.
  - unfold display_time. unfold_monad. simpl. done.
Qed.

(** ** The refresh state and the end of a run *)

(** X1: over any session the refresh state is the one at the start,
    flipped once for every press of the toggle button; nothing else that
    happens in a run (fetch, validation, alert, error) changes it. *)
Theorem refresh_state_follows_the_button env buttons w :
  auto_refresh (run_session env buttons w)
  = xorb (odd_presses buttons) (auto_refresh w).
Proof.
  revert w. induction buttons as [|button buttons IH]; intros w; simpl.
  - done.
  - change (foldl _ _ buttons) with (run_session env buttons (after_run env button w)).
    rewrite IH, script_auto_refresh.
    by destruct button, (odd_presses buttons), (auto_refresh w).
Qed.

Lemma cycle_body_now : stable (same now) cycle_body.
Proof. unfold_script. footprint. Qed.

(** X2: every run of the script ends normally, whatever the outside does.
    A run that finds the refresh state on sleeps its ten seconds and asks
    for the rerun; a run that finds it off does not sleep and waits. *)
Theorem run_ends_after_sleep_or_waits env button w :
  let active := xorb button (auto_refresh w) in
  ∃ w', script button env w = (Ok (if active then Rerun else Finished), w') ∧
        now w' = now w + (if active then 10 else 0).
Proof.
  intros active. subst active. rewrite <- (header_auto_refresh button w).
  unfold script. unfold_monad. rewrite header_run.
  destruct (auto_refresh (header_world button w)).
  - unfold display_time, time_sleep. unfold_monad. simpl.
    match goal with |- context [cycle_body env ?w1] =>
      pose proof (cycle_body_now env w1) as Hnow;
      destruct (cycle_body env w1) as [[[]|e] w2] end;
      unfold same in Hnow; simpl in *; eexists; (split; [reflexivity|]);
      simpl; by rewrite Hnow.
  - unfold display_time. unfold_monad. simpl. eexists. split; [reflexivity|].
    simpl. lia.
Qed.

(** ** More on the fetch *)

(** X3: with nothing stored for the query and a connector that answers,
    [run_query] makes its six connector calls in this order on one new
    connection, returns what the data source answered on it, stores that
    frame under the query and leaves the connection closed. *)
Theorem run_query_fetches_once_and_closes env w q :
  let conn := next_conn w in
  cache w !! q = None →
  (∀ op, faults env conn op = None) →
  ∃ w',
    run_query q env w = (Ok (query_result env conn q), w') ∧
    calls w' = calls w ++
      [(conn, OpConnect); (conn, OpCursor); (conn, OpExecute (Query q));
       (conn, OpFetch); (conn, OpCursorClose); (conn, OpClose)] ∧
    (conn ∉ open_conns w') ∧
    cache w' = <[q := query_result env conn q]> (cache w) ∧
    next_conn w' = S conn.
Proof.
  intros conn Hmiss Hok. subst conn.
  unfold run_query, st_cache_data, run_query_body. unfold_connector.
  unfold run_stmt. unfold_monad. rewrite Hmiss. simpl. rewrite !Hok. simpl.
  eexists. split; [reflexivity|]. simpl. split; [|split; [|done]].
  - by rewrite <- !app_assoc.
  - apply not_elem_of_difference. right. by apply elem_of_singleton.
Qed.

Lemma run_query_fetches_once_and_closes_witness :
  let env := healthy_env (λ _ _, frame_of [1; 2; 3]%Q) in
  let w := fresh_world in
  let conn := next_conn w in
  cache w !! query = None ∧
  ∃ w',
    run_query query env w = (Ok (query_result env conn query), w') ∧
    calls w' = calls w ++
      [(conn, OpConnect); (conn, OpCursor); (conn, OpExecute (Query query));
       (conn, OpFetch); (conn, OpCursorClose); (conn, OpClose)] ∧
    (conn ∉ open_conns w') ∧
    cache w' = <[query := query_result env conn query]> (cache w) ∧
    next_conn w' = S conn.
Proof.
  intros env w conn. split; [reflexivity|].
  apply (run_query_fetches_once_and_closes env w query); reflexivity.
Defined.

Lemma run_query_body_cache q : stable (same cache) (run_query_body q).
Proof. unfold_script. footprint. Qed.

(** X4: a fetch that raises stores nothing: the cache is what it was, so
    the next call for the query starts by asking the data source for a
    connection again. *)
Theorem failed_fetch_is_not_stored env w q e w' :
  run_query q env w = (Raise e, w') →
  cache w' = cache w ∧
  ∃ rest, calls (run_query q env w').2
          = calls w' ++ (next_conn w', OpConnect) :: rest.
Proof.
  intros Hrun.
  assert (cache w !! q = None ∧ cache w' = cache w) as [Hmiss Hsame].
  { revert Hrun. unfold run_query, st_cache_data. unfold_monad.
    destruct (cache w !! q) as [df|] eqn:Hq; [done|].
    pose proof (run_query_body_cache q env w) as Hkeep. unfold same in Hkeep.
    destruct (run_query_body q env w) as [[df|e'] w1]; [done|].
    intros [= -> ->]. done. }
  split; [done|].
  rewrite <- Hsame in Hmiss. rewrite (run_query_miss_calls env w' q Hmiss).
  apply run_query_body_calls.
Qed.

Lemma failed_fetch_is_not_stored_witness :
  let env := connect_fails_env in
  let e := mkExn DatabaseError "connection refused" in
  let w' := (run_query query env fresh_world).2 in
  run_query query env fresh_world = (Raise e, w') ∧
  cache w' = cache fresh_world ∧
  ∃ rest, calls (run_query query env w').2
          = calls w' ++ (next_conn w', OpConnect) :: rest.
Proof.
  intros env e w'.
  assert (run_query query env fresh_world = (Raise e, w')) as Hrun
    by reflexivity.
  split; [exact Hrun|].
  exact (failed_fetch_is_not_stored env fresh_world query e w' Hrun).
Defined.

(** X5: when [cursor.execute] raises and the [close] calls go through, the
    [finally] block closes cursor and connection, and what [run_query]
    raises is the error of the execution; nothing is fetched. *)
Theorem failed_execute_closes_and_propagates env w q msg :
  let conn := next_conn w in
  cache w !! q = None →
  faults env conn OpConnect = None →
  faults env conn OpCursor = None →
  faults env conn (OpExecute (Query q)) = Some msg →
  faults env conn OpCursorClose = None →
  faults env conn OpClose = None →
  ∃ w',
    run_query q env w = (Raise (mkExn DatabaseError msg), w') ∧
    calls w' = calls w ++
      [(conn, OpConnect); (conn, OpCursor); (conn, OpExecute (Query q));
       (conn, OpCursorClose); (conn, OpClose)] ∧
    conn ∉ open_conns w'.
Proof.
  intros conn Hmiss H1 H2 H3 H4 H5. subst conn.
  unfold run_query, st_cache_data, run_query_body. unfold_connector.
  unfold run_stmt. unfold_monad. rewrite Hmiss. simpl.
  rewrite H1. simpl. rewrite H2. simpl. rewrite H3. simpl.
  rewrite H4. simpl. rewrite H5. simpl.
  eexists. split; [reflexivity|]. simpl. split.
  - by rewrite <- !app_assoc.
  - apply not_elem_of_difference. right. by apply elem_of_singleton.
Qed.

Lemma failed_execute_closes_and_propagates_witness :
  let env := execute_fails_env in
  let w := fresh_world in
  let conn := next_conn w in
  cache w !! query = None ∧
  faults env conn (OpExecute (Query query)) = Some "SQL compilation error" ∧
  ∃ w',
    run_query query env w
      = (Raise (mkExn DatabaseError "SQL compilation error"), w') ∧
    calls w' = calls w ++
      [(conn, OpConnect); (conn, OpCursor); (conn, OpExecute (Query query));
       (conn, OpCursorClose); (conn, OpClose)] ∧
    (conn ∉ open_conns w').
Proof.
  intros env w conn. split; [reflexivity|]. split; [reflexivity|].
  apply (failed_execute_closes_and_propagates env w query); reflexivity.
Defined.

(** ** The stored frame over a session *)

Lemma count_queries_snoc log c :
  is_query_call c = false → count_queries (log ++ [c]) = count_queries log.
Proof.
  intros Hc. unfold count_queries. rewrite filter_app, length_app.
  rewrite filter_cons, Hc. simpl. lia.
Qed.

#[local] Instance stored_preorder q df : PreOrder (stored q df).
Proof.
  split.
  - intros w Hq. done.
  - intros w1 w2 w3 H12 H23 Hq. destruct (H12 Hq) as [Hq2 Hc2].
    destruct (H23 Hq2) as [Hq3 Hc3]. split; [done|congruence].
Qed.

Lemma stored_of_fetch_state {A} q df (c : M A) :
  stable (same fetch_state) c → stable (stored q df) c.
Proof.
  intros Hc env w Hq. specialize (Hc env w). unfold same, fetch_state in Hc.
  injection Hc as Hcache Hcount. rewrite Hcache. done.
Qed.

Ltac fetch_state_footprint :=
  repeat first
    [ done
    | stable_step
    | progress (lazy beta iota zeta)
    | progress (unfold same, fetch_state; simpl;
                rewrite ?count_queries_snoc by done) ].

Lemma send_alert_fetch_state message :
  stable (same fetch_state) (send_alert message).
Proof. unfold_script. fetch_state_footprint. Qed.

Lemma after_fetch_fetch_state results_df :
  stable (same fetch_state)
    (show (StSuccess "Query executed successfully!");;
     show (StWrite ("Results (" +:+ str (df_len results_df) +:+ " rows):"));;
     show (StDataframe results_df);;
     validation_results ← validate_data results_df;
     show (StWriteBool (success validation_results));;
     anomaly_check results_df).
Proof. unfold_script. fetch_state_footprint. Qed.

Lemma run_query_stored df : stable (stored query df) (run_query query).
Proof.
  intros env w Hq. unfold run_query, st_cache_data. unfold_monad.
  by rewrite Hq.
Qed.

Lemma script_stored button df : stable (stored query df) (script button).
Proof.
  unfold script.
  apply stable_bind; [apply _| |intros _].
  { intros env w Hq. by rewrite header_run. }
  apply stable_get_bind. intros w. destruct (auto_refresh w).
  - apply stable_bind; [apply _| |intros _].
    { apply stored_of_fetch_state. unfold_script. fetch_state_footprint. }
    apply stable_bind; [apply _| |intros _].
    + apply stable_try_except; [apply _| |intros e].
      * unfold cycle_body. apply stable_bind; [apply _| |intros results_df].
        -- apply run_query_stored.
        -- apply stored_of_fetch_state, after_fetch_fetch_state.
      * apply stored_of_fetch_state. unfold_script. fetch_state_footprint.
    + apply stored_of_fetch_state. unfold_script. fetch_state_footprint.
  - apply stored_of_fetch_state. unfold_script. fetch_state_footprint.
Qed.

(** X6: once a frame is stored for the query, it stays: over any session,
    whatever the buttons and the outside do, the stored frame is the same
    at the end and no run has executed the query again. *)
Theorem stored_frame_is_never_refreshed env buttons w df :
  cache w !! query = Some df →
  let w' := run_session env buttons w in
  cache w' !! query = Some df ∧
  count_queries (calls w') = count_queries (calls w).
Proof.
  revert w. induction buttons as [|button buttons IH]; intros w Hq; simpl.
  - done.
  - destruct (script_stored button df env w Hq) as [Hq1 Hc1].
    destruct (IH (after_run env button w) Hq1) as [Hq2 Hc2].
    split; [exact Hq2|]. etrans; [exact Hc2|exact Hc1].
Qed.

Lemma stored_frame_is_never_refreshed_witness :
  let env := drifting_env in
  let w := after_run env true fresh_world in
  let df := frame_of [1; 2; 3]%Q in
  cache w !! query = Some df ∧
  let w' := run_session env [false; true; true; false] w in
  cache w' !! query = Some df ∧
  count_queries (calls w') = count_queries (calls w).
Proof.
  intros env w df.
  assert (cache w !! query = Some df) as Hq by reflexivity.
  split; [exact Hq|].
  exact (stored_frame_is_never_refreshed env [false; true; true; false] w df Hq).
Defined.

(** ** More on the alert ledger *)

(** X7: on a connection without a transaction of its own and a connector
    that answers, [is_alert_sent] returns whether the message is among the
    recorded alerts, and changes neither the ledger nor the screen. *)
Theorem is_alert_sent_answers_membership env w conn message :
  (∀ op, faults env conn op = None) →
  txn w !! conn = None →
  ∃ w',
    is_alert_sent conn message env w
      = (Ok (bool_decide (message ∈ sent_alerts w)), w') ∧
    sent_alerts w' = sent_alerts w ∧ txn w' = txn w ∧
    screen w' = screen w ∧ open_conns w' = open_conns w.
Proof.
  intros Hok Htxn. unfold is_alert_sent. unfold_connector. unfold run_stmt.
  unfold_monad. simpl. rewrite !Hok. simpl.
  unfold visible_alerts. simpl. rewrite Htxn. simpl. rewrite app_nil_r.
  destruct (count_alerts message (sent_alerts w)) eqn:Hcount; simpl.
  - apply count_alerts_zero in Hcount.
    rewrite bool_decide_eq_false_2 by done. eauto 10.
  - assert (message ∈ sent_alerts w) as Hin.
    { destruct (decide (message ∈ sent_alerts w)) as [|Hnot]; [done|].
      apply count_alerts_zero in Hnot. congruence. }
    rewrite bool_decide_eq_true_2 by done. eauto 10.
Qed.

Lemma is_alert_sent_answers_membership_witness :
  let env := healthy_env (λ _ _, []) in
  let w := set_sent_alerts ["disk full"] fresh_world in
  txn w !! 0 = None ∧
  ∃ w',
    is_alert_sent 0 "disk full" env w
      = (Ok (bool_decide ("disk full" ∈ sent_alerts w)), w') ∧
    sent_alerts w' = sent_alerts w ∧ txn w' = txn w ∧
    screen w' = screen w ∧ open_conns w' = open_conns w.
Proof.
  intros env w. split; [reflexivity|].
  apply (is_alert_sent_answers_membership env w 0 "disk full"); reflexivity.
Defined.

(** X8: on a ledger that enforces uniqueness and already holds the
    message, [log_alert] has its INSERT refused, sends ROLLBACK and returns
    normally: no record is added and no transaction is left open. *)
Theorem log_alert_of_recorded_message_rolls_back env w conn message :
  unique_enforced env = true →
  (∀ op, faults env conn op = None) →
  message ∈ sent_alerts w →
  ∃ w',
    log_alert conn message env w = (Ok tt, w') ∧
    sent_alerts w' = sent_alerts w ∧
    txn w' !! conn = None ∧
    calls w' = calls w ++
      [(conn, OpCursor); (conn, OpExecute Begin);
       (conn, OpCursor); (conn, OpExecute (InsertAlert message));
       (conn, OpCursor); (conn, OpExecute Rollback)].
Proof.
  intros Hunique Hok Hin. unfold log_alert. unfold_connector. unfold run_stmt.
  unfold_monad. simpl. rewrite !Hok. simpl. rewrite Hunique. simpl.
  destruct (txn w !! conn) as [pending|] eqn:Htxn; simpl; rewrite ?Hok; simpl.
  - rewrite bool_decide_eq_true_2.
    2:{ unfold visible_alerts. simpl. apply elem_of_app. by left. }
    simpl. rewrite ?Hok. simpl. eexists. split; [reflexivity|]. simpl.
    rewrite lookup_delete_eq, <- !app_assoc. done.
  - rewrite bool_decide_eq_true_2.
    2:{ unfold visible_alerts. simpl. apply elem_of_app. by left. }
    simpl. rewrite ?Hok. simpl. eexists. split; [reflexivity|]. simpl.
    rewrite lookup_delete_eq, <- !app_assoc. done.
Qed.

Lemma log_alert_of_recorded_message_rolls_back_witness :
  let env := healthy_env (λ _ _, []) in
  let w := set_sent_alerts ["disk full"] fresh_world in
  unique_enforced env = true ∧
  "disk full" ∈ sent_alerts w ∧
  ∃ w',
    log_alert 0 "disk full" env w = (Ok tt, w') ∧
    sent_alerts w' = sent_alerts w ∧
    txn w' !! 0 = None ∧
    calls w' = calls w ++
      [(0, OpCursor); (0, OpExecute Begin);
       (0, OpCursor); (0, OpExecute (InsertAlert "disk full"));
       (0, OpCursor); (0, OpExecute Rollback)].
Proof.
  intros env w.
  assert ("disk full" ∈ sent_alerts w) as Hin by left.
  split; [reflexivity|]. split; [exact Hin|].
  apply (log_alert_of_recorded_message_rolls_back env w 0 "disk full");
    [reflexivity|reflexivity|exact Hin].
Defined.

(** X9: [log_alert] handles the integrity error only.  When COMMIT raises
    after BEGIN and INSERT went through, the error leaves [log_alert] as it
    is, no ROLLBACK is sent, nothing is recorded and the transaction stays
    open with the row in it. *)
Theorem log_alert_commit_error_is_not_handled env w conn message msg :
  txn w !! conn = None →
  message ∉ sent_alerts w →
  faults env conn OpCursor = None →
  faults env conn (OpExecute Begin) = None →
  faults env conn (OpExecute (InsertAlert message)) = None →
  faults env conn (OpExecute Commit) = Some msg →
  ∃ w',
    log_alert conn message env w = (Raise (mkExn DatabaseError msg), w') ∧
    sent_alerts w' = sent_alerts w ∧
    txn w' !! conn = Some [message] ∧
    calls w' = calls w ++
      [(conn, OpCursor); (conn, OpExecute Begin);
       (conn, OpCursor); (conn, OpExecute (InsertAlert message));
       (conn, OpCursor); (conn, OpExecute Commit)].
Proof.
  intros Htxn Hnew Hcursor Hbegin Hinsert Hcommit.
  unfold log_alert. unfold_connector. unfold run_stmt. unfold_monad. simpl.
  rewrite Hcursor. simpl. rewrite Hbegin. simpl. rewrite Htxn. simpl.
  rewrite Hinsert. simpl. unfold visible_alerts. simpl.
  destruct (<[conn:=[]]> (txn w) !! conn) as [pending|] eqn:E;
    rewrite lookup_insert_eq in E; [|done]. injection E as <-. simpl.
  rewrite bool_decide_eq_false_2 by (by rewrite app_nil_r).
  rewrite andb_false_r. simpl. rewrite Hcommit. simpl.
  eexists. split; [reflexivity|]. simpl.
  rewrite lookup_insert_eq, <- !app_assoc. done.
Qed.

Lemma log_alert_commit_error_is_not_handled_witness :
  let env := commit_fails_env in
  let w := fresh_world in
  txn w !! 0 = None ∧ ("disk full" ∉ sent_alerts w) ∧
  ∃ w',
    log_alert 0 "disk full" env w
      = (Raise (mkExn DatabaseError "commit failed"), w') ∧
    sent_alerts w' = sent_alerts w ∧
    txn w' !! 0 = Some ["disk full"] ∧
    calls w' = calls w ++
      [(0, OpCursor); (0, OpExecute Begin);
       (0, OpCursor); (0, OpExecute (InsertAlert "disk full"));
       (0, OpCursor); (0, OpExecute Commit)].
Proof.
  intros env w.
  assert ("disk full" ∉ sent_alerts w) as Hnew by apply not_elem_of_nil.
  split; [reflexivity|]. split; [exact Hnew|].
  apply (log_alert_commit_error_is_not_handled env w 0 "disk full" "commit failed");
    [reflexivity|exact Hnew|reflexivity..].
Defined.

Lemma is_alert_sent_open_conns conn message :
  stable (same open_conns) (is_alert_sent conn message).
Proof. unfold_script. footprint. Qed.

Lemma log_alert_open_conns conn message :
  stable (same open_conns) (log_alert conn message).
Proof. unfold_script. footprint. Qed.

Lemma connect_opens env w :
  faults env (next_conn w) OpConnect = None →
  ∃ w1, get_snowflake_connection env w = (Ok (next_conn w), w1) ∧
        next_conn w ∈ open_conns w1.
Proof.
  intros Hconnect. unfold_connector. unfold_monad. simpl. rewrite Hconnect.
  simpl. eexists. split; [reflexivity|]. simpl.
  apply elem_of_union. left. by apply elem_of_singleton.
Qed.

Lemma conn_close_closes env conn w :
  conn ∈ open_conns w →
  conn ∈ open_conns (conn_close conn env w).2
  ↔ ∃ e, (conn_close conn env w).1 = Raise e.
Proof.
  intros Hopen. unfold conn_close, connector_call. unfold_monad. simpl.
  destruct (faults env conn OpClose); simpl.
  - split; eauto.
  - split; [|by intros [e ?]]. intros Hin.
    apply elem_of_difference in Hin as [_ Hnot]. destruct Hnot.
    by apply elem_of_singleton.
Qed.

Ltac run_pairs := lazy beta iota zeta delta [fst snd].

(** X10: [send_alert] closes its connection on its last line only.  Once
    it is connected, the connection is still open afterwards exactly when
    [send_alert] raised: an error in the check, in the insert or in the
    close itself leaves it open. *)
Theorem send_alert_leaves_connection_open_iff_it_raises env w message :
  let conn := next_conn w in
  let out := send_alert message env w in
  faults env conn OpConnect = None →
  conn ∈ open_conns out.2 ↔ ∃ e, out.1 = Raise e.
Proof.
  intros conn out Hconnect. subst conn out.
  destruct (connect_opens env w Hconnect) as (w1 & Hrun & Hopen).
  unfold send_alert. unfold mbind, M_bind. rewrite Hrun.
  pose proof (is_alert_sent_open_conns (next_conn w) message env w1) as Hcheck.
  unfold same in Hcheck.
  destruct (is_alert_sent (next_conn w) message env w1) as [[sent|e] w2];
    run_pairs; simpl in Hcheck; [|rewrite Hcheck; split; eauto].
  rewrite <- Hcheck in Hopen.
  destruct sent; cbn [negb].
  - unfold show, modify. run_pairs.
    match goal with |- context [conn_close _ _ ?w3] =>
      pose proof (conn_close_closes env (next_conn w) w3 Hopen) as Hclose;
      destruct (conn_close (next_conn w) env w3) as [[[]|e] w4]
    end; exact Hclose.
  - pose proof (log_alert_open_conns (next_conn w) message env w2) as Hlog.
    unfold same in Hlog.
    destruct (log_alert (next_conn w) message env w2) as [[[]|e] w3];
      run_pairs; simpl in Hlog; [|rewrite Hlog; split; eauto].
    rewrite <- Hlog in Hopen. unfold show, modify. run_pairs.
    match goal with |- context [conn_close _ _ ?w4] =>
      pose proof (conn_close_closes env (next_conn w) w4 Hopen) as Hclose;
      destruct (conn_close (next_conn w) env w4) as [[[]|e] w5]
    end; exact Hclose.
Qed.

Lemma send_alert_leaves_connection_open_iff_it_raises_witness :
  let env := commit_fails_env in
  let w := fresh_world in
  let conn := next_conn w in
  let out := send_alert alert_message env w in
  faults env conn OpConnect = None ∧
  (conn ∈ open_conns out.2 ↔ ∃ e, out.1 = Raise e).
Proof.
  intros env w conn out. split; [reflexivity|].
  apply (send_alert_leaves_connection_open_iff_it_raises env w alert_message).
  reflexivity.
Defined.

(** With COMMIT raising, the connection of [send_alert] is left open. *)
Example send_alert_commit_failure_leaks :
  let out := send_alert alert_message commit_fails_env fresh_world in
  out.1 = Raise (mkExn DatabaseError "commit failed") ∧
  elements (open_conns out.2) = [0] ∧ sent_alerts out.2 = [] ∧
  screen out.2 = [].
Proof. vm_compute. done. Qed.

(** ** More on the active run *)

(** X11: the validation does not gate the alert.  After a successful
    fetch the run shows the success line, the row count, the frame and the
    validation flag, and then, when the maximum of the numeric columns
    exceeds 6, goes on to [send_alert] whether the flag is true or false. *)
Theorem alert_does_not_wait_for_validation env w df w1 :
  run_query query env w = (Ok df, w1) →
  rectangular df → max_exceeds_6 df →
  ∃ w2,
    cycle_body env w = send_alert alert_message env w2 ∧
    screen w2 = screen w1 ++
      [StSuccess "Query executed successfully!";
       StWrite ("Results (" +:+ str (df_len df) +:+ " rows):");
       StDataframe df;
       StWriteBool (success (validate df employee_suite))] ∧
    sent_alerts w2 = sent_alerts w1 ∧ calls w2 = calls w1 ∧
    next_conn w2 = next_conn w1.
Proof.
  intros Hfetch Hrect Hmax. unfold cycle_body, validate_data. unfold_monad.
  rewrite Hfetch. simpl. rewrite (anomaly_check_alerts df Hrect Hmax).
  eexists. split; [reflexivity|]. simpl. by rewrite <- !app_assoc.
Qed.

Lemma alert_does_not_wait_for_validation_witness :
  let df := [("EMPLOYEE_ID", NumberSeries [Some 1%Q; None; Some 7%Q])] in
  let env := healthy_env (λ _ _, df) in
  let w := fresh_world in
  let w1 := (run_query query env w).2 in
  run_query query env w = (Ok df, w1) ∧ rectangular df ∧ max_exceeds_6 df ∧
  success (validate df employee_suite) = false ∧
  ∃ w2,
    cycle_body env w = send_alert alert_message env w2 ∧
    screen w2 = screen w1 ++
      [StSuccess "Query executed successfully!";
       StWrite ("Results (" +:+ str (df_len df) +:+ " rows):");
       StDataframe df;
       StWriteBool (success (validate df employee_suite))] ∧
    sent_alerts w2 = sent_alerts w1 ∧ calls w2 = calls w1 ∧
    next_conn w2 = next_conn w1.
Proof.
  intros df env w w1.
  assert (run_query query env w = (Ok df, w1)) as Hfetch by reflexivity.
  assert (rectangular df) as Hrect by (by repeat constructor).
  assert (max_exceeds_6 df) as Hmax by (by apply gt_6_iff).
  split; [exact Hfetch|]. split; [exact Hrect|]. split; [exact Hmax|].
  split; [reflexivity|].
  exact (alert_does_not_wait_for_validation env w df w1 Hfetch Hrect Hmax).
Defined.

(** X12: whatever raises in the [try] block of an active run, the fetch,
    or later the alert ledger, is shown as [Error running query: ...]; the
    run records nothing after it, sleeps and asks for the rerun. *)
Theorem cycle_error_is_shown_as_query_error env button w e w2 :
  auto_refresh (header button env w).2 = true →
  cycle_body env (at_fetch env button w) = (Raise e, w2) →
  ∃ w3,
    script button env w = (Ok Rerun, w3) ∧
    screen w3 = screen w2 ++ [StError ("Error running query: " +:+ exn_msg e)] ∧
    sent_alerts w3 = sent_alerts w2 ∧ calls w3 = calls w2 ∧
    open_conns w3 = open_conns w2 ∧
    now w3 = now w2 + 10.
Proof.
  unfold at_fetch, display_time. unfold_monad. rewrite header_run. simpl.
  intros Hactive Hcycle.
  unfold script. unfold_monad. rewrite header_run, Hactive.
  unfold time_sleep. unfold_monad. simpl. rewrite Hcycle. simpl.
  eexists. split; [reflexivity|]. done.
Qed.

Lemma cycle_error_is_shown_as_query_error_witness :
  let env := ledger_down_env in
  let w := fresh_world in
  let e := mkExn DatabaseError "ledger unreachable" in
  let w2 := (cycle_body env (at_fetch env true w)).2 in
  auto_refresh (header true env w).2 = true ∧
  cycle_body env (at_fetch env true w) = (Raise e, w2) ∧
  ∃ w3,
    script true env w = (Ok Rerun, w3) ∧
    screen w3 = screen w2 ++ [StError ("Error running query: " +:+ exn_msg e)] ∧
    sent_alerts w3 = sent_alerts w2 ∧ calls w3 = calls w2 ∧
    open_conns w3 = open_conns w2 ∧
    now w3 = now w2 + 10.
Proof.
  intros env w e w2.
  assert (cycle_body env (at_fetch env true w) = (Raise e, w2)) as Hcycle
    by (vm_compute; reflexivity).
  split; [reflexivity|]. split; [exact Hcycle|].
  apply (cycle_error_is_shown_as_query_error env true w e w2);
    [reflexivity|exact Hcycle].
Defined.

(** A run whose fetch succeeds and whose alert cannot reach the ledger:
    the frame is shown, then the error under the label of the query. *)
Example ledger_failure_is_shown_as_query_error :
  let w := after_run ledger_down_env true fresh_world in
  screen w =
    [StTitle "Data Anomaly Detection"; StWrite "Auto-refresh is ON";
     StWrite "Current time: 0"; StSuccess "Query executed successfully!";
     StWrite "Results (3 rows):";
     StDataframe [("EMPLOYEE_ID", NumberSeries [Some 1%Q; None; Some 7%Q])];
     StWriteBool false; StError "Error running query: ledger unreachable"] ∧
  sent_alerts w = [] ∧ now w = 10.
Proof. vm_compute. done. Qed.

(** ** The ledger over sessions *)

(** X13: whatever the ledger holds at the start of a session, the session
    keeps every record and adds at most one, the fixed message, and only
    if the ledger did not hold it. *)
Theorem session_adds_at_most_one_record env buttons w :
  let w' := run_session env buttons w in
  sent_alerts w' = sent_alerts w ∨
  ((alert_message ∉ sent_alerts w) ∧
   sent_alerts w' = sent_alerts w ++ [alert_message]).
Proof.
  intros w'. destruct (run_session_step env buttons w) as [[Hsame _]|(Hnew & Hadd & _)].
  - by left.
  - by right.
Qed.

(** ** Connections asked for *)

Lemma connects_none {A} (c : M A) :
  stable (same next_conn) c → connects_at_most 0 c.
Proof. intros Hc env w. specialize (Hc env w). unfold same in Hc. lia. Qed.

Lemma connects_more {A} n m (c : M A) :
  (n ≤ m)%nat → connects_at_most n c → connects_at_most m c.
Proof. intros Hnm Hc env w. specialize (Hc env w). lia. Qed.

Lemma connects_bind {A B} n m (c : M A) (f : A → M B) :
  connects_at_most n c → (∀ a, connects_at_most m (f a)) →
  connects_at_most (n + m) (c ≫= f).
Proof.
  intros Hc Hf env w. unfold_monad. specialize (Hc env w).
  destruct (c env w) as [[a|e] w1]; simpl in *; [|lia].
  specialize (Hf a env w1). lia.
Qed.

Lemma connects_try_except {A} n m (body : M A) handler :
  connects_at_most n body → (∀ e, connects_at_most m (handler e)) →
  connects_at_most (n + m) (try_except body handler).
Proof.
  intros Hb Hh env w. unfold_monad. specialize (Hb env w).
  destruct (body env w) as [[a|e] w1]; simpl in *; [lia|].
  specialize (Hh e env w1). lia.
Qed.

Lemma connects_once : connects_at_most 1 get_snowflake_connection.
Proof.
  intros env w. unfold_connector. unfold_monad. simpl.
  destruct (faults env (next_conn w) OpConnect); simpl; lia.
Qed.

Lemma run_query_connects q : connects_at_most 1 (run_query q).
Proof.
  intros env w. unfold run_query, st_cache_data. unfold_monad.
  destruct (cache w !! q); simpl; [lia|].
  assert (connects_at_most (1 + 0) (run_query_body q)) as Hbody.
  { unfold run_query_body. apply connects_bind; [apply connects_once|].
    intros conn. apply connects_none. unfold_script. footprint. }
  specialize (Hbody env w).
  destruct (run_query_body q env w) as [[df|e] w1]; simpl in *; lia.
Qed.

Lemma send_alert_connects message : connects_at_most (1 + 0) (send_alert message).
Proof.
  unfold send_alert. apply connects_bind; [apply connects_once|].
  intros conn. apply connects_none. unfold_script. footprint.
Qed.

Lemma cycle_body_connects : connects_at_most (1 + 1) cycle_body.
Proof.
  unfold cycle_body. apply connects_bind; [apply run_query_connects|].
  intros df. unfold anomaly_check.
  destruct (negb (df_empty df)); [destruct (gt_6 _)|].
  - change 1 with (0 + (1 + 0)). apply connects_bind.
    { apply connects_none. unfold_script. footprint. }
    intros _. apply (connects_bind 0 (1 + 0)).
    { apply connects_none. unfold_script. footprint. }
    intros _. apply (connects_bind 0 (1 + 0)).
    { apply connects_none. unfold_script. footprint. }
    intros _. apply (connects_bind 0 (1 + 0)).
    { apply connects_none. unfold_script. footprint. }
    intros report. apply (connects_bind 0 (1 + 0)).
    { apply connects_none. unfold_script. footprint. }
    intros _. apply send_alert_connects.
  - apply (connects_more 0); [lia|]. apply connects_none.
    unfold_script. footprint.
  - apply (connects_more 0); [lia|]. apply connects_none.
    unfold_script. footprint.
Qed.

(** X15: a run of the script asks for at most two connections, one for
    the fetch and one for the alert, whatever the outside does; with a
    frame stored for the query it asks for at most one. *)
Theorem run_connects_at_most_twice env button w :
  let w' := after_run env button w in
  (next_conn w ≤ next_conn w' ≤ next_conn w + 2)%nat ∧
  (is_Some (cache w !! query) → (next_conn w' ≤ next_conn w + 1)%nat).
Proof.
  intros w'. subst w'. unfold after_run, script. unfold_monad.
  rewrite header_run.
  destruct (auto_refresh (header_world button w)).
  - unfold display_time, time_sleep, try_except. unfold_monad. simpl.
    match goal with |- context [cycle_body env ?w1] =>
      pose proof (cycle_body_connects env w1) as Htwice;
      assert (is_Some (cache w !! query) →
              (next_conn (cycle_body env w1).2 ≤ next_conn w + 1)%nat) as Honce
    end.
    { intros [df Hq].
      unfold cycle_body, run_query, st_cache_data, validate_data, anomaly_check.
      unfold_monad. simpl. rewrite Hq. simpl.
      destruct (negb (df_empty df)); [destruct (gt_6 _)|]; simpl; try lia.
      match goal with |- context [send_alert ?m ?e ?w2] =>
        pose proof (send_alert_connects m e w2) as Hsend
      end. simpl in Hsend. lia. }
    destruct (cycle_body env _) as [[[]|e] w1]; simpl in *;
      (split; [lia|intros Hstored; specialize (Honce Hstored); lia]).
  - unfold display_time. unfold_monad. simpl. split; [lia|]. intros _. lia.
Qed.
